(** * Laum Project: identifier generation, report lifecycle, admin glue

    A shallow embedding of the logic in [web/models.py], [web/admin.py]
    and [laumproject/urls.py].  Database tables are finite maps from the
    storage-assigned primary key to the row; code that can raise returns a
    [result]; code that talks to the mail channel appends to an effect
    trace.  Helpers that live in modules outside the embedded sources
    ([web/helpers.py], [web/managers.py], [web/persian_editors.py],
    [web/templatetags/web_extras.py], the Django settings) are section
    variables, or are modelled from the specification where marked. *)

From Stdlib Require Import Ascii String.
From stdpp Require Import base strings list gmap pretty.

(* ===================================================================== *)
(** * Exceptions and fallible computations *)
(* ===================================================================== *)

Inductive exception : Type :=
  | Exception (msg : string)
  | KeyError (key : string)
  | IndexError
  | RecursionError
  | IntegrityError (constraint : string).

Inductive result (A : Type) : Type :=
  | Ok (a : A)
  | Raise (e : exception).
Arguments Ok {A} a.
Arguments Raise {A} e.

(** Code that mutates a store and may raise: the store survives the
    exception (every statement is committed as it runs). *)
Definition stx (S A : Type) : Type := S → S * result A.

Definition ret {S A : Type} (a : A) : stx S A := λ s, (s, Ok a).

Definition raise {S A : Type} (e : exception) : stx S A := λ s, (s, Raise e).

Definition bind {S A B : Type} (m : stx S A) (k : A → stx S B) : stx S B :=
  λ s, match m s with
       | (s', Ok a) => k a s'
       | (s', Raise e) => (s', Raise e)
       end.

Definition get {S : Type} : stx S S := λ s, (s, Ok s).

Definition put {S : Type} (s : S) : stx S unit := λ _, (s, Ok tt).

Notation "x <- m ;; k" := (bind m (λ x, k))
  (at level 100, m at next level, right associativity, only parsing).
Notation "m ;;; k" := (bind m (λ _, k))
  (at level 100, right associativity, only parsing).

Definition raises {A : Type} (r : result A) : Prop :=
  ∃ e, r = Raise e.

(* ===================================================================== *)
(** * Data model ([web/models.py]) *)
(* ===================================================================== *)

(** The date part of a [DateTimeField]; the display methods only format
    the year, the month and the day. *)
Record datetime : Type := {
  year : nat;
  month : nat;
  day : nat
}.

(** [Report.STATUS_CHOICES]. *)
Inductive Status : Type :=
  | STATUS_IS_PENDING
  | STATUS_IS_ACCEPTED
  | STATUS_IS_DENIED.

Global Instance Status_eq_dec : EqDecision Status.
Proof. solve_decision. Defined.

(** [Group]: [language = None] removes the inherited language column. *)
Record Group : Type := {
  group_pk : option nat;
  gid : string;
  group_updated_on : datetime;
  group_created_on : datetime
}.

(** [Page].  [group] is a nullable foreign key to [Group.gid]
    ([null=True, blank=True]); the image file and the many-to-many tag
    set take no part in the logic embedded here. *)
Record Page : Type := {
  page_pk : option nat;
  group : option string;
  page_language : string;
  pid : string;
  title : string;
  subtitle : string;
  content : string;
  event : string;
  image_caption : string;
  reference : string;
  website : string;
  author : string;
  page_is_active : bool;
  page_updated_on : datetime;
  page_created_on : datetime
}.

(** [Report].  [page] is the related [Page] object the instance carries;
    [rid] is nullable and not editable. *)
Record Report : Type := {
  report_pk : option nat;
  page : Page;
  rid : option string;
  body : string;
  reporter : string;
  description : string;
  status : Status;
  report_language : string;
  report_updated_on : datetime;
  report_created_on : datetime
}.

Record Tag : Type := {
  tag_pk : option nat;
  name : string;
  keyword : string;
  tag_is_active : bool;
  tag_language : string;
  tag_updated_on : datetime;
  tag_created_on : datetime
}.

(** [BaseModel] is abstract: every concrete model exposes the two
    timestamps the display methods read. *)
Class BaseModel (M : Type) : Type := {
  updated_on : M → datetime;
  created_on : M → datetime
}.

Global Instance Group_BaseModel : BaseModel Group :=
  {| updated_on := group_updated_on; created_on := group_created_on |}.
Global Instance Page_BaseModel : BaseModel Page :=
  {| updated_on := page_updated_on; created_on := page_created_on |}.
Global Instance Report_BaseModel : BaseModel Report :=
  {| updated_on := report_updated_on; created_on := report_created_on |}.
Global Instance Tag_BaseModel : BaseModel Tag :=
  {| updated_on := tag_updated_on; created_on := tag_created_on |}.

(** A table: rows by primary key, and the next key of the sequence. *)
Record Table (R : Type) : Type := {
  rows : gmap nat R;
  next_pk : nat
}.
Arguments rows {R} _.
Arguments next_pk {R} _.

(** Python truthiness of a value that is [None] or a [str]. *)
Definition truthy (v : option string) : bool :=
  match v with
  | None => false
  | Some s => negb (bool_decide (s = ""))
  end.

(* ===================================================================== *)
(** * Identifier generator ([generate_gid], [generate_pid]) *)
(* ===================================================================== *)

(** Modelled from the spec: [GroupManager.is_gid_exist] ([web/managers.py]
    is not among the sources) checks existence of the candidate against
    the persisted rows of the kind. *)
Definition is_gid_exist (groups : gmap nat Group) (new_gid : string) : bool :=
  bool_decide (map_Exists (λ _ g, gid g = new_gid) groups).

(** Modelled from the spec: [PageManager.is_pid_exist] ([web/managers.py]
    is not among the sources), the same existence check on pages. *)
Definition is_pid_exist (pages : gmap nat Page) (new_pid : string) : bool :=
  bool_decide (map_Exists (λ _ p, pid p = new_pid) pages).

Section IdentifierGenerator.

(** [settings.GID_PREFIX], [settings.PID_PREFIX]. *)
Variables GID_PREFIX PID_PREFIX : string.

(** [id_generator()] draws a random suffix.  The random source is a
    stream of draws; the state threaded through is the number of draws
    consumed so far. *)
Variable id_generator : nat → string.

(** The [while not new_gid] loop; [fuel] bounds the number of
    iterations the model runs, [None] is "still looping". *)
Fixpoint generate_gid_loop (fuel : nat) (groups : gmap nat Group)
    (new_gid : option string) (drawn : nat) : option (string * nat) :=
  let iteration :=
    match fuel with
    | 0 => None
    | S fuel' =>
        let postfix_string := id_generator drawn in
        let new_gid := Some (GID_PREFIX +:+ "_" +:+ postfix_string) in
        let new_gid :=
          if is_gid_exist groups (GID_PREFIX +:+ "_" +:+ postfix_string)
          then None else new_gid in
        generate_gid_loop fuel' groups new_gid (S drawn)
    end in
  match new_gid with
  | Some s => if truthy (Some s) then Some (s, drawn) else iteration
  | None => iteration
  end.

Definition generate_gid (fuel : nat) (groups : gmap nat Group)
    (drawn : nat) : option (string * nat) :=
  generate_gid_loop fuel groups None drawn.

Fixpoint generate_pid_loop (fuel : nat) (pages : gmap nat Page)
    (new_pid : option string) (drawn : nat) : option (string * nat) :=
  let iteration :=
    match fuel with
    | 0 => None
    | S fuel' =>
        let postfix_string := id_generator drawn in
        let new_pid := Some (PID_PREFIX +:+ "_" +:+ postfix_string) in
        let new_pid :=
          if is_pid_exist pages (PID_PREFIX +:+ "_" +:+ postfix_string)
          then None else new_pid in
        generate_pid_loop fuel' pages new_pid (S drawn)
    end in
  match new_pid with
  | Some s => if truthy (Some s) then Some (s, drawn) else iteration
  | None => iteration
  end.

Definition generate_pid (fuel : nat) (pages : gmap nat Page)
    (drawn : nat) : option (string * nat) :=
  generate_pid_loop fuel pages None drawn.

End IdentifierGenerator.
(* ===================================================================== *)
(** * Language switch ([laumproject/urls.py]) *)
(* ===================================================================== *)

(** [str.split(sep)] for a one-character separator: the pieces between
    the occurrences of [sep], always at least one piece. *)
Fixpoint split (sep : ascii) (s : string) : list string :=
  match s with
  | EmptyString => [EmptyString]
  | String c s' =>
      if bool_decide (c = sep) then EmptyString :: split sep s'
      else match split sep s' with
           | part :: parts => String c part :: parts
           | [] => [String c EmptyString]
           end
  end.

(** The double quote of the second error message. *)
Definition dquote : string := String (ascii_of_nat 34) EmptyString.

Section LanguageSwitch.

(** [settings.LANGUAGES]: pairs of a language code and its name. *)
Variable LANGUAGES : list (string * string).

Definition lang_codes : list string :=
  (λ '(c, name), c) <$> LANGUAGES.

(** [parts[1]] raises [IndexError] out of range; the two item
    assignments are in range whenever [parts[1]] was read. *)
Definition switch_lang_code (path_ language : string) : result string :=
  if bool_decide (path_ = "") then
    Raise (Exception "URL path for language switch is empty")
  else
    match path_ with
    | EmptyString => Raise IndexError
    | String c0 _ =>
        if bool_decide (c0 ≠ "/"%char) then
          Raise (Exception ("URL path for language switch does not start with "
                            +:+ dquote +:+ "/" +:+ dquote))
        else if bool_decide (language ∉ lang_codes) then
          Raise (Exception (language +:+ " is not a supported language code"))
        else
          let parts := split "/" path_ in
          match parts !! 1 with
          | None => Raise IndexError
          | Some first =>
              let parts :=
                if bool_decide (first ∈ lang_codes)
                then <[1:=language]> parts
                else <[0:="/" +:+ language]> parts in
              Ok (String.concat "/" parts)
          end
    end.

End LanguageSwitch.
(* ===================================================================== *)
(** * The persistent store and [Model.save] *)
(* ===================================================================== *)

(** The events of a run, in the order they happen: a write to the
    report table, the assignment of a reference identifier, a message
    handed to the mail channel. *)
Inductive effect : Type :=
  | Persisted (created : bool) (pk : nat)
  | RidAssigned (pk : option nat) (new_rid : string)
  | EmailSent (template : string) (to : list string) (report : Report).

(** [ReportAdmin] keeps the read-only field names in an attribute of the
    admin object itself, shared by all calls on it. *)
Record ReportAdmin : Type := {
  readonly_fields : list string
}.

(** The state a request runs against: the report table, the date of the
    request (for [auto_now] and [auto_now_add]), the admin object and
    the effect trace. *)
Record State : Type := {
  reports : Table Report;
  today : datetime;
  admin : ReportAdmin;
  trace : list effect
}.

Definition set_reports (t : Table Report) (st : State) : State :=
  {| reports := t; today := today st; admin := admin st; trace := trace st |}.

Definition set_admin (a : ReportAdmin) (st : State) : State :=
  {| reports := reports st; today := today st; admin := a; trace := trace st |}.

Definition emit (e : effect) : stx State unit :=
  λ st, ({| reports := reports st; today := today st; admin := admin st;
            trace := trace st ++ [e] |}, Ok tt).

Definition set_report_pk (k : option nat) (r : Report) : Report :=
  {| report_pk := k; page := page r; rid := rid r; body := body r;
     reporter := reporter r; description := description r;
     status := status r; report_language := report_language r;
     report_updated_on := report_updated_on r;
     report_created_on := report_created_on r |}.

Definition set_rid (v : option string) (r : Report) : Report :=
  {| report_pk := report_pk r; page := page r; rid := v; body := body r;
     reporter := reporter r; description := description r;
     status := status r; report_language := report_language r;
     report_updated_on := report_updated_on r;
     report_created_on := report_created_on r |}.

Definition set_body (v : string) (r : Report) : Report :=
  {| report_pk := report_pk r; page := page r; rid := rid r; body := v;
     reporter := reporter r; description := description r;
     status := status r; report_language := report_language r;
     report_updated_on := report_updated_on r;
     report_created_on := report_created_on r |}.

Definition set_description (v : string) (r : Report) : Report :=
  {| report_pk := report_pk r; page := page r; rid := rid r; body := body r;
     reporter := reporter r; description := v;
     status := status r; report_language := report_language r;
     report_updated_on := report_updated_on r;
     report_created_on := report_created_on r |}.

Definition set_status (v : Status) (r : Report) : Report :=
  {| report_pk := report_pk r; page := page r; rid := rid r; body := body r;
     reporter := reporter r; description := description r;
     status := v; report_language := report_language r;
     report_updated_on := report_updated_on r;
     report_created_on := report_created_on r |}.

Definition set_report_dates (upd crt : datetime) (r : Report) : Report :=
  {| report_pk := report_pk r; page := page r; rid := rid r; body := body r;
     reporter := reporter r; description := description r;
     status := status r; report_language := report_language r;
     report_updated_on := upd;
     report_created_on := crt |}.

(** [rid] is [unique=True, null=True]: a non-null value may be held by
    one row only; null values never collide. *)
Definition rid_taken (tbl : gmap nat Report) (k : nat) (v : option string) : bool :=
  match v with
  | None => false
  | Some _ => bool_decide (map_Exists (λ k' r, k' ≠ k ∧ rid r = v) tbl)
  end.

(** The write of [Model.save] for a [Report]: an instance without a
    primary key is inserted under the next key of the sequence; an
    instance with a key updates its row, or is inserted under that key
    when no row has it.  [updated_on] is [auto_now], [created_on] is
    [auto_now_add].  Returns the instance as the caller sees it after
    the write and the [created] flag of the [post_save] signal. *)
Definition Report_save_base (instance : Report) : stx State (Report * bool) :=
  λ st,
    let tbl := reports st in
    let k := default (next_pk tbl) (report_pk instance) in
    let created := bool_decide (rows tbl !! k = None) in
    if bool_decide (report_pk instance = None) && negb created then
      (st, Raise (IntegrityError "web_report.id"))
    else if rid_taken (rows tbl) k (rid instance) then
      (st, Raise (IntegrityError "web_report.rid"))
    else
      let instance :=
        set_report_dates (today st)
          (if created then today st else report_created_on instance)
          (set_report_pk (Some k) instance) in
      let tbl := {| rows := <[k:=instance]> (rows tbl);
                    next_pk := next_pk tbl `max` S k |} in
      ({| reports := tbl; today := today st; admin := admin st;
          trace := trace st ++ [Persisted created k] |},
       Ok (instance, created)).

(** [str(instance.pk)] inside an f-string. *)
Definition str_pk (k : option nat) : string :=
  match k with
  | Some n => pretty n
  | None => "None"
  end.

Section ReferenceId.

(** [settings.RID_PREFIX] and [helpers.swap_prefix]. *)
Variable RID_PREFIX : string.
Variable swap_prefix : string → string → string.

(** The [post_save] receiver of [Report]; [save] is [instance.save]. *)
Definition generate_rid (save : Report → stx State Report)
    (instance : Report) (created : bool) : stx State Report :=
  if created then
    let new_rid :=
      swap_prefix (pid (page instance) +:+ "_" +:+ str_pk (report_pk instance))
                  RID_PREFIX in
    let instance := set_rid (Some new_rid) instance in
    emit (RidAssigned (report_pk instance) new_rid) ;;;
    save instance
  else ret instance.

(** [Report.save]: the write, then the [post_save] signal, whose only
    receiver for this sender is [generate_rid].  [depth] is the
    interpreter's recursion limit: the receiver saves the instance
    again, from inside the signal. *)
Fixpoint Report_save (depth : nat) (instance : Report) : stx State Report :=
  match depth with
  | 0 => raise RecursionError
  | S depth' =>
      written <- Report_save_base instance ;;
      let '(instance, created) := written in
      generate_rid (Report_save depth') instance created
  end.

End ReferenceId.
(* ===================================================================== *)
(** * Pages: [Model.save] under the declared constraints *)
(* ===================================================================== *)

Definition set_page_pk (k : option nat) (p : Page) : Page :=
  {| page_pk := k; group := group p; page_language := page_language p;
     pid := pid p; title := title p; subtitle := subtitle p;
     content := content p; event := event p;
     image_caption := image_caption p; reference := reference p;
     website := website p; author := author p;
     page_is_active := page_is_active p;
     page_updated_on := page_updated_on p;
     page_created_on := page_created_on p |}.

Definition set_page_dates (upd crt : datetime) (p : Page) : Page :=
  {| page_pk := page_pk p; group := group p; page_language := page_language p;
     pid := pid p; title := title p; subtitle := subtitle p;
     content := content p; event := event p;
     image_caption := image_caption p; reference := reference p;
     website := website p; author := author p;
     page_is_active := page_is_active p;
     page_updated_on := upd;
     page_created_on := crt |}.

(** The five assignments of [PageAdmin.save_model]. *)
Definition set_page_texts (t s c e i : string) (p : Page) : Page :=
  {| page_pk := page_pk p; group := group p; page_language := page_language p;
     pid := pid p; title := t; subtitle := s;
     content := c; event := e;
     image_caption := i; reference := reference p;
     website := website p; author := author p;
     page_is_active := page_is_active p;
     page_updated_on := page_updated_on p;
     page_created_on := page_created_on p |}.

(** [pid] is [unique=True]. *)
Definition pid_taken (tbl : gmap nat Page) (k : nat) (v : string) : bool :=
  bool_decide (map_Exists (λ k' p, k' ≠ k ∧ pid p = v) tbl).

(** [unique_together = ('group', 'language')] on a nullable [group]: a
    row whose [group] is null takes no part in the constraint. *)
Definition group_language_taken (tbl : gmap nat Page) (k : nat)
    (g : option string) (lang : string) : bool :=
  match g with
  | None => false
  | Some _ =>
      bool_decide (map_Exists
        (λ k' p, k' ≠ k ∧ group p = g ∧ page_language p = lang) tbl)
  end.

(** [Page.save]; no [post_save] receiver listens to this sender.  The
    table of groups is not part of the state: that [group] names a
    stored group (the foreign key) is not checked here, and what is
    proved of a page with a group holds for a page whose group is
    stored.  The order in which a database reports two violated
    constraints at once is not fixed by the source; here [pid] is
    looked at first. *)
Definition Page_save (today : datetime) (instance : Page) : stx (Table Page) Page :=
  λ tbl,
    let k := default (next_pk tbl) (page_pk instance) in
    let created := bool_decide (rows tbl !! k = None) in
    if bool_decide (page_pk instance = None) && negb created then
      (tbl, Raise (IntegrityError "web_page.id"))
    else if pid_taken (rows tbl) k (pid instance) then
      (tbl, Raise (IntegrityError "web_page.pid"))
    else if group_language_taken (rows tbl) k (group instance)
                                 (page_language instance) then
      (tbl, Raise (IntegrityError "web_page.group_id, web_page.language"))
    else
      let instance :=
        set_page_dates today
          (if created then today else page_created_on instance)
          (set_page_pk (Some k) instance) in
      ({| rows := <[k:=instance]> (rows tbl);
          next_pk := next_pk tbl `max` S k |},
       Ok instance).

(** [Page.delete] of the row with key [k]. *)
Definition Page_delete (k : nat) : stx (Table Page) unit :=
  λ tbl, ({| rows := delete k (rows tbl); next_pk := next_pk tbl |}, Ok tt).

(** Deleting a [Group] cascades to its pages ([on_delete=CASCADE]). *)
Definition Group_delete_cascade (g : string) : stx (Table Page) unit :=
  λ tbl, ({| rows := filter (λ kp, group kp.2 ≠ Some g) (rows tbl);
             next_pk := next_pk tbl |}, Ok tt).

(** Store states reachable from the empty table by saves and deletes. *)
Inductive reachable : Table Page → Prop :=
  | reachable_empty :
      reachable {| rows := ∅; next_pk := 1 |}
  | reachable_save tbl today instance :
      reachable tbl → reachable (Page_save today instance tbl).1
  | reachable_delete tbl k :
      reachable tbl → reachable (Page_delete k tbl).1
  | reachable_cascade tbl g :
      reachable tbl → reachable (Group_delete_cascade g tbl).1.

(* ===================================================================== *)
(** * Text normaliser configuration ([PersianEditors]) *)
(* ===================================================================== *)

(** The configuration surface of the normaliser: the active passes and
    the toggle for line breaks. *)
Record PersianEditors : Type := {
  editors_list : list string;
  escape_return : bool
}.

(** Modelled from the spec: [PersianEditors.set_editors]
    ([web/persian_editors.py] is not among the sources) replaces the
    set of active passes and leaves the line-break toggle as it is. *)
Definition set_editors (editors : list string) (self : PersianEditors) : PersianEditors :=
  {| editors_list := editors; escape_return := escape_return self |}.

(** The attribute assignment [editor.escape_return = v]. *)
Definition set_escape_return (v : bool) (self : PersianEditors) : PersianEditors :=
  {| editors_list := editors_list self; escape_return := v |}.

(* ===================================================================== *)
(** * The admin ([web/admin.py]) *)
(* ===================================================================== *)

(** The stored values of [Report.status]. *)
Definition Status_value (s : Status) : string :=
  match s with
  | STATUS_IS_PENDING => "pending"
  | STATUS_IS_ACCEPTED => "accepted"
  | STATUS_IS_DENIED => "denied"
  end.

Definition Status_of_value (v : string) : option Status :=
  if bool_decide (v = "pending") then Some STATUS_IS_PENDING
  else if bool_decide (v = "accepted") then Some STATUS_IS_ACCEPTED
  else if bool_decide (v = "denied") then Some STATUS_IS_DENIED
  else None.

(** [d[key]] on a dict. *)
Definition getitem {S : Type} (d : gmap string string) (key : string) : stx S string :=
  match d !! key with
  | Some v => ret v
  | None => raise (KeyError key)
  end.

(** [ReportAdmin.get_readonly_fields]: the list is stored on the admin
    object, extended in place, and returned. *)
Definition get_readonly_fields (obj : option Report) : stx State (list string) :=
  st <- get ;;
  let self := {| readonly_fields := ["view_page"; "body"; "rid"; "send_email";
                                     "jalali_updated_on"; "jalali_created_on"] |} in
  let self :=
    match obj with
    | Some o =>
        if negb (bool_decide (status o = STATUS_IS_PENDING))
        then {| readonly_fields := readonly_fields self ++ ["description"; "status"] |}
        else self
    | None => self
    end in
  put (set_admin self st) ;;;
  ret (readonly_fields self).

Section Admin.

Variable RID_PREFIX : string.
Variable swap_prefix : string → string → string.

(** [PersianEditors(editors)]: the constructor's default for the
    line-break toggle, and [run], are in [web/persian_editors.py]. *)
Variable default_escape_return : bool.
Variable run : PersianEditors → string → string.

(** The translation catalogue behind [_]. *)
Variable ugettext_lazy : string → string.

(** Modelled from the spec: the [PersianEditors] constructor
    ([web/persian_editors.py] is not among the sources) records the
    requested passes as the active ones. *)
Definition PersianEditors_init (editors : list string) : PersianEditors :=
  {| editors_list := editors; escape_return := default_escape_return |}.

(** [PageAdmin.save_model]; [super().save_model] saves the object. *)
Definition PageAdmin_save_model (today : datetime) (obj : Page) : stx (Table Page) Page :=
  let editor := PersianEditors_init ["space"; "number";
                                     "arabic"; "punctuation_marks"] in
  let obj := set_page_texts (run editor (title obj))
                            (run editor (subtitle obj))
                            (run editor (content obj))
                            (run editor (event obj))
                            (run editor (image_caption obj)) obj in
  Page_save today obj.

(** [message.send([obj.reporter])].  The message is handed to the mail
    channel and recorded in the trace; a failure of the transport,
    which the real call would raise out of [save_model] after the row
    is written, is outside the model. *)
Definition send_report_result (obj : Report) : stx State unit :=
  emit (EmailSent "emails/report_result.html" [reporter obj] obj).

(** [ReportAdmin.save_model]. *)
Definition ReportAdmin_save_model (depth : nat) (obj : Report)
    (cleaned_data : gmap string string) : stx State Report :=
  st <- get ;;
  let is_first_change :=
    bool_decide ("status" ∉ readonly_fields (admin st))
    && negb (bool_decide (status obj = STATUS_IS_PENDING)) in
  obj <- (if is_first_change then
            submitted <- getitem cleaned_data "description" ;;
            ret (if truthy (Some submitted) then obj
                 else set_description (ugettext_lazy "-") obj)
          else ret obj) ;;
  let editor := PersianEditors_init ["space"; "number"; "arabic";
                                     "punctuation_marks"] in
  let obj := set_description (run editor (description obj)) obj in
  let editor := set_editors ["space"] editor in
  let editor := set_escape_return false editor in
  let obj := set_body (run editor (body obj)) obj in
  obj <- Report_save RID_PREFIX swap_prefix depth obj ;;
  (if is_first_change then send_report_result obj else ret tt) ;;;
  ret obj.

(** The change view of the framework, as far as it drives the two
    methods above: it loads the row, asks for the read-only fields,
    builds the form from the editable fields that are not read-only
    ([description] and [status]; [body] is always read-only and [rid]
    is not editable), copies the cleaned values onto the object and
    calls [save_model].  [None] is a response without a save (no such
    row, or a [status] outside the choices).  [POST] holds, for each
    field, the value the form field returns: for [description] the
    text after the surrounding white space is stripped.  The row is
    looked up by its key in the whole table; the language filter of
    [ReportAdmin.get_queryset], which answers a request for a report
    in another language without a save, is not applied. *)
Definition construct_instance (cleaned_data : gmap string string)
    (obj : Report) : Report :=
  let obj := match cleaned_data !! "description" with
             | Some v => set_description v obj
             | None => obj
             end in
  match cleaned_data !! "status" ≫= Status_of_value with
  | Some v => set_status v obj
  | None => obj
  end.

Definition clean (fields : list string) (POST : gmap string string)
    : option (gmap string string) :=
  let cleaned : gmap string string :=
    if bool_decide ("description" ∈ fields)
    then {[ "description" := default "" (POST !! "description") ]}
    else ∅ in
  if bool_decide ("status" ∈ fields) then
    match POST !! "status" with
    | Some v => match Status_of_value v with
                | Some _ => Some (<["status":=v]> cleaned)
                | None => None
                end
    | None => None
    end
  else Some cleaned.

Definition change_view (depth : nat) (object_id : nat)
    (POST : gmap string string) : stx State (option Report) :=
  st <- get ;;
  match rows (reports st) !! object_id with
  | None => ret None
  | Some obj =>
      readonly <- get_readonly_fields (Some obj) ;;
      let fields := filter (λ f, f ∉ readonly) ["description"; "status"] in
      match clean fields POST with
      | None => ret None
      | Some cleaned_data =>
          let obj := construct_instance cleaned_data obj in
          obj <- ReportAdmin_save_model depth obj cleaned_data ;;
          ret (Some obj)
      end
  end.

(** A sequence of change requests on one report, one after the other;
    each request leaves the state the next one runs against. *)
Fixpoint change_views (depth : nat) (object_id : nat)
    (submissions : list (gmap string string)) (st : State) : State :=
  match submissions with
  | [] => st
  | POST :: later =>
      change_views depth object_id later (change_view depth object_id POST st).1
  end.

End Admin.

(* ===================================================================== *)
(** * Admin change lists ([get_queryset]) *)
(* ===================================================================== *)

Section ChangeLists.

(** [helpers.get_active_language()]: the language of the request. *)
Variable get_active_language : string.

(** [Page.objects] is the custom [PageManager] ([web/managers.py]);
    the rows it selects are a parameter. *)
Variable Page_objects : gmap nat Page → gmap nat Page.

Definition PageAdmin_get_queryset (pages : gmap nat Page) : gmap nat Page :=
  filter (λ kp, page_language kp.2 = get_active_language) (Page_objects pages).

Definition ReportAdmin_get_queryset (reports : gmap nat Report) : gmap nat Report :=
  filter (λ kr, report_language kr.2 = get_active_language) reports.

Definition TagAdmin_get_queryset (tags : gmap nat Tag) : gmap nat Tag :=
  filter (λ kt, tag_language kt.2 = get_active_language) tags.

End ChangeLists.
(* ===================================================================== *)
(** * Localized date display ([BaseModel.jalali_updated_on]) *)
(* ===================================================================== *)

Fixpoint zeros (n : nat) : string :=
  match n with
  | 0 => EmptyString
  | S n' => String "0" (zeros n')
  end.

(** A decimal number padded with zeros on the left up to [width]. *)
Definition zero_pad (width n : nat) : string :=
  zeros (width - String.length (pretty n)) +:+ pretty n.

(** [strftime('%Y-%m-%d')]: month and day in two digits; the year is
    printed as the platform's C library prints it, on glibc without
    padding (four digits from the year 1000 on). *)
Definition strftime_Ymd (d : datetime) : string :=
  pretty (year d) +:+ "-" +:+ zero_pad 2 (month d) +:+ "-" +:+ zero_pad 2 (day d).

Definition is_ascii_digit (c : ascii) : bool :=
  bool_decide (48 ≤ nat_of_ascii c ≤ 57).

(** The Persian-script digit for an ASCII digit: U+06F0 to U+06F9, the
    two bytes [0xDB], [0xB0 + d] in UTF-8. *)
Definition persian_digit (c : ascii) : string :=
  String (ascii_of_nat 219)
    (String (ascii_of_nat (176 + (nat_of_ascii c - 48))) EmptyString).

(** Modelled from the spec: [convert_digits_to_persian]
    ([web/templatetags/web_extras.py] is not among the sources) remaps
    the ASCII digits of a string to Persian-script digit glyphs and
    leaves every other character as it is. *)
Fixpoint to_persian (s : string) : string :=
  match s with
  | EmptyString => EmptyString
  | String c s' =>
      (if is_ascii_digit c then persian_digit c else String c EmptyString)
      +:+ to_persian s'
  end.

(** The reading of a display string back into ASCII digits: the two
    bytes of a Persian-script digit become the ASCII digit, every other
    byte stays. *)
Fixpoint from_persian (s : string) : string :=
  match s with
  | EmptyString => EmptyString
  | String a rest =>
      match rest with
      | EmptyString => String a EmptyString
      | String b rest' =>
          if bool_decide (nat_of_ascii a = 219 ∧ 176 ≤ nat_of_ascii b ≤ 185)
          then String (ascii_of_nat (nat_of_ascii b - 176 + 48))
                      (from_persian rest')
          else String a (from_persian rest)
      end
  end.

Section DateDisplay.

(** The imported [convert_date_to_jalali], which the methods call under
    the name [to_jalali]: the Jalali display string of a Gregorian
    [year-month-day] string.  Its model is [convert_date_to_jalali]
    below. *)
Variable to_jalali : string → string.

Definition jalali_updated_on {M : Type} `{BaseModel M} (self : M) : string :=
  let jalali_date := to_jalali (strftime_Ymd (updated_on self)) in
  to_persian jalali_date.

Definition jalali_created_on {M : Type} `{BaseModel M} (self : M) : string :=
  let jalali_date := to_jalali (strftime_Ymd (created_on self)) in
  to_persian jalali_date.

End DateDisplay.

(* ===================================================================== *)
(** * The Jalali calendar ([convert_date_to_jalali]) *)
(* ===================================================================== *)

(** A calendar date as year, month and day. *)
Definition ymd (d : datetime) : Z * Z * Z :=
  (Z.of_nat (year d), Z.of_nat (month d), Z.of_nat (day d)).

Definition of_ymd (t : Z * Z * Z) : datetime :=
  {| year := Z.to_nat t.1.1; month := Z.to_nat t.1.2; day := Z.to_nat t.2 |}.

Definition gregorian_leap (y : Z) : bool :=
  ((y mod 4 =? 0) && (negb (y mod 100 =? 0) || (y mod 400 =? 0)))%Z.

Definition gregorian_month_days (y m : Z) : Z :=
  (if m =? 2 then (if gregorian_leap y then 29 else 28)
   else if (m =? 4) || (m =? 6) || (m =? 9) || (m =? 11) then 30
   else 31)%Z.

(** The arithmetic Jalali calendar: six months of 31 days, five of 30
    and a last month of 29 days, of 30 in a leap year; the leap years
    are eight in every cycle of 33 years. *)
Definition jalali_leap (y : Z) : bool :=
  bool_decide ((y mod 33)%Z ∈ [1; 5; 9; 13; 17; 22; 26; 30]%Z).

Definition jalali_month_days (y m : Z) : Z :=
  (if m <=? 6 then 31
   else if m <=? 11 then 30
   else if jalali_leap y then 30 else 29)%Z.

(** A date of the calendar with the given month lengths. *)
Definition valid_date (month_days : Z → Z → Z) (t : Z * Z * Z) : bool :=
  let '(y, m, d) := t in
  ((1 <=? y) && (1 <=? m) && (m <=? 12) && (1 <=? d)
   && (d <=? month_days y m))%Z.

(** The day after a date, in the calendar with the given month lengths. *)
Definition next_day (month_days : Z → Z → Z) (t : Z * Z * Z) : Z * Z * Z :=
  let '(y, m, d) := t in
  (if d <? month_days y m then (y, m, d + 1)
   else if m <? 12 then (y, m + 1, 1)
   else (y + 1, 1, 1))%Z.

(** The number of the day, counted from 1 January of the year 1. *)
Definition gregorian_day_number (t : Z * Z * Z) : Z :=
  let '(y, m, d) := t in
  (365 * (y - 1) + (y - 1) `div` 4 - (y - 1) `div` 100 + (y - 1) `div` 400
   + foldr Z.add 0 (gregorian_month_days y <$> seqZ 1 (m - 1))
   + d)%Z.

(** Modelled from the spec: the calendar arithmetic of
    [convert_date_to_jalali] ([web/templatetags/web_extras.py] is not
    among the sources), which produces the Jalali calendar equivalent of
    a Gregorian date.  The days are counted from 1 Farvardin 979, which
    is 20 March 1600; a cycle of 33 years has 12053 days, and in it
    eight spans of four years, of 1461 days, each starting with its leap
    year. *)
Definition jalali_of_day_number (n : Z) : Z * Z * Z :=
  (let cycle := n `div` 12053 in
   let span := (n `mod` 12053) `div` 1461 in
   let in_span := (n `mod` 12053) `mod` 1461 in
   let years := if in_span <? 366 then 0 else (in_span - 1) `div` 365 in
   let in_year := if in_span <? 366 then in_span
                  else (in_span - 1) `mod` 365 in
   let y := 979 + 33 * cycle + 4 * span + years in
   if in_year <? 186
   then (y, in_year `div` 31 + 1, in_year `mod` 31 + 1)
   else (y, (in_year - 186) `div` 30 + 7, (in_year - 186) `mod` 30 + 1))%Z.

Definition gregorian_to_jalali (t : Z * Z * Z) : Z * Z * Z :=
  jalali_of_day_number (gregorian_day_number t - 584102).

(** [check] holds of the [count] integers from [n] on. *)
Fixpoint all_from (check : Z → bool) (n : Z) (count : nat) : bool :=
  match count with
  | 0 => true
  | S count' => check n && all_from check (n + 1)%Z count'
  end.

(** A decimal numeral; [None] for the empty text and for a text with a
    character that is no digit. *)
Fixpoint parse_digits (acc : nat) (s : string) : option nat :=
  match s with
  | EmptyString => Some acc
  | String c s' =>
      if is_ascii_digit c
      then parse_digits (10 * acc + (nat_of_ascii c - 48)) s'
      else None
  end.

Definition parse_nat (s : string) : option nat :=
  if bool_decide (s = "") then None else parse_digits 0 s.

(** A [year-month-day] string read as a date. *)
Definition parse_Ymd (text : string) : option datetime :=
  match split "-" text with
  | [y; m; d] =>
      y ← parse_nat y; m ← parse_nat m; d ← parse_nat d;
      Some {| year := y; month := m; day := d |}
  | _ => None
  end.

(** Modelled from the spec: [convert_date_to_jalali]
    ([web/templatetags/web_extras.py] is not among the sources) takes
    the [year-month-day] string of a Gregorian date and gives the
    display string of its Jalali calendar equivalent, written in the
    same form.  A text that is no date is handed back; the display
    methods never pass one. *)
Definition convert_date_to_jalali (text : string) : string :=
  match parse_Ymd text with
  | Some g => strftime_Ymd (of_ymd (gregorian_to_jalali (ymd g)))
  | None => text
  end.

(** A day of the Gregorian calendar in a year of four digits. *)
Definition civil (d : datetime) : Prop :=
  1000 ≤ year d ∧ valid_date gregorian_month_days (ymd d) = true.
(* ===================================================================== *)
(** * Vocabulary of the statements *)
(* ===================================================================== *)

(** An effect other than a notification. *)
Definition silent (e : effect) : Prop :=
  match e with
  | EmailSent _ _ _ => False
  | _ => True
  end.

(** An effect other than the derivation of a reference identifier. *)
Definition keeps_rid (e : effect) : Prop :=
  match e with
  | RidAssigned _ _ => False
  | _ => True
  end.

(** The fields of a report that [Model.save] and the [post_save]
    receiver leave as they are. *)
Definition same_content (a b : Report) : Prop :=
  page a = page b ∧ body a = body b ∧ reporter a = reporter b
  ∧ description a = description b ∧ status a = status b
  ∧ report_language a = report_language b.

(** The two configurations of the normaliser the admin uses. *)
Definition full_editor (default_escape_return : bool) : PersianEditors :=
  {| editors_list := ["space"; "number"; "arabic"; "punctuation_marks"];
     escape_return := default_escape_return |}.

Definition space_editor : PersianEditors :=
  {| editors_list := ["space"]; escape_return := false |}.

(** [unique_together] as a property of a table: two rows with the same
    non-null group and the same language are the same row. *)
Definition one_page_per_group_language (tbl : gmap nat Page) : Prop :=
  ∀ k1 k2 p1 p2 g,
    tbl !! k1 = Some p1 → tbl !! k2 = Some p2 →
    group p1 = Some g → group p2 = Some g →
    page_language p1 = page_language p2 →
    k1 = k2.

(** A report after the two normalising assignments of
    [ReportAdmin.save_model]. *)
Definition normalised (default_escape_return : bool)
    (run : PersianEditors → string → string) (obj : Report) : Report :=
  set_body (run space_editor (body obj))
    (set_description
       (run (full_editor default_escape_return) (description obj)) obj).

(* ===================================================================== *)
(** * Concrete stores and collaborators *)
(* ===================================================================== *)

Definition spring_day : datetime := {| year := 2023; month := 3; day := 21 |}.

Definition LANGUAGES_fa_en : list (string * string) :=
  [("fa", "Persian"); ("en", "English")].

(** A random source that repeats its first suffix. *)
Definition example_draws (n : nat) : string :=
  match n with
  | 0 => "aaaa"
  | 1 => "aaaa"
  | 2 => "cccc"
  | _ => "dddd"
  end.

Definition example_group : Group :=
  {| group_pk := Some 1; gid := "g_aaaa";
     group_updated_on := spring_day; group_created_on := spring_day |}.

Definition example_groups : gmap nat Group := {[ 1 := example_group ]}.

Definition new_page (g : option string) (lang p t : string) : Page :=
  {| page_pk := None; group := g; page_language := lang; pid := p;
     title := t; subtitle := ""; content := "content  of the page";
     event := ""; image_caption := ""; reference := ""; website := "";
     author := ""; page_is_active := true;
     page_updated_on := spring_day; page_created_on := spring_day |}.

Definition example_page : Page :=
  set_page_pk (Some 1) (new_page (Some "g_aaaa") "fa" "p_aaaa" "Title 1").

Definition example_pages : gmap nat Page := {[ 1 := example_page ]}.

Definition empty_pages : Table Page := {| rows := ∅; next_pk := 1 |}.

(** One page without a group, then a second one in the same language. *)
Definition groupless_first : Page := new_page None "fa" "p_aaaa" "First".
Definition groupless_second : Page := new_page None "fa" "p_bbbb" "Second".
Definition one_groupless_page : Table Page :=
  (Page_save spring_day groupless_first empty_pages).1.

Definition two_groupless_pages : Table Page :=
  (Page_save spring_day groupless_second one_groupless_page).1.

(** One page of a group. *)
Definition one_grouped_page : Table Page :=
  (Page_save spring_day (new_page (Some "g_aaaa") "fa" "p_aaaa" "First")
             empty_pages).1.

(** A prefix swap on identifiers of the form [prefix_rest]. *)
Fixpoint after_underscore (s : string) : string :=
  match s with
  | EmptyString => EmptyString
  | String c s' => if bool_decide (c = "_"%char) then s' else after_underscore s'
  end.

Definition example_swap_prefix (s new_prefix : string) : string :=
  new_prefix +:+ "_" +:+ after_underscore s.

(** A normaliser whose number pass is the digit remap. *)
Definition example_run (editor : PersianEditors) (text : string) : string :=
  if bool_decide ("number" ∈ editors_list editor) then to_persian text else text.

Definition new_report : Report :=
  {| report_pk := None; page := example_page; rid := None;
     body := "line 1"; reporter := "reader@example.com";
     description := ""; status := STATUS_IS_PENDING;
     report_language := "fa";
     report_updated_on := spring_day; report_created_on := spring_day |}.

Definition pending_report : Report :=
  set_rid (Some "r_aaaa_1") (set_report_pk (Some 1) new_report).

Definition accepted_report : Report :=
  set_status STATUS_IS_ACCEPTED (set_description "-" pending_report).

Definition state_with (stored : gmap nat Report) (next : nat) : State :=
  {| reports := {| rows := stored; next_pk := next |};
     today := spring_day;
     admin := {| readonly_fields := [] |};
     trace := [] |}.

Definition accept_without_description : gmap string string :=
  {[ "status" := "accepted"; "description" := "" ]}.

Definition deny_with_description : gmap string string :=
  {[ "status" := "denied"; "description" := "no" ]}.

(* ===================================================================== *)
(** * Further vocabulary: store invariants and notification counts *)
(* ===================================================================== *)

(** [pid] is [unique=True]: two rows with the same [pid] are the same row. *)
Definition pids_unique (tbl : gmap nat Page) : Prop :=
  ∀ k1 k2 p1 p2,
    tbl !! k1 = Some p1 → tbl !! k2 = Some p2 → pid p1 = pid p2 → k1 = k2.

(** Every row carries its own key, and the sequence is ahead of the keys. *)
Definition page_keys_sound (tbl : Table Page) : Prop :=
  ∀ k p, rows tbl !! k = Some p → page_pk p = Some k ∧ k < next_pk tbl.

Definition report_keys_sound (tbl : Table Report) : Prop :=
  ∀ k r, rows tbl !! k = Some r → report_pk r = Some k ∧ k < next_pk tbl.

(** [rid] is [unique=True, null=True]: two rows with the same non-null
    [rid] are the same row. *)
Definition rids_unique (tbl : gmap nat Report) : Prop :=
  ∀ k1 k2 r1 r2 v,
    tbl !! k1 = Some r1 → tbl !! k2 = Some r2 →
    rid r1 = Some v → rid r2 = Some v → k1 = k2.

Definition is_email (e : effect) : bool :=
  match e with
  | EmailSent _ _ _ => true
  | _ => false
  end.

(** The number of messages handed to the mail channel. *)
Definition notifications (events : list effect) : nat :=
  length (filter (λ e, is_email e = true) events).

(** The recipients of the messages in a trace. *)
Definition recipients (events : list effect) : list (list string) :=
  omap (λ e, match e with
             | EmailSent _ to _ => Some to
             | _ => None
             end) events.

(** The read-only field names of a report form: the six fixed ones, and
    the two editable ones once the report is decided. *)
Definition readonly_for (obj : option Report) : list string :=
  ["view_page"; "body"; "rid"; "send_email";
   "jalali_updated_on"; "jalali_created_on"]
  ++ match obj with
     | Some o => if bool_decide (status o = STATUS_IS_PENDING) then []
                 else ["description"; "status"]
     | None => []
     end.

(** Two pages of one group, in two languages. *)
Definition two_grouped_pages : Table Page :=
  (Page_save spring_day (new_page (Some "g_aaaa") "en" "p_bbbb" "Second")
             one_grouped_page).1.

(** A report after its first write, before the receiver has run. *)
Definition saved_report : Report :=
  set_report_pk (Some 1) new_report.

(* ===================================================================== *)
(** * Theorems: identifier generator *)
(* ===================================================================== *)

Lemma candidate_nonempty (prefix suffix : string) :
  prefix +:+ "_" +:+ suffix ≠ "".
Proof. destruct prefix; discriminate. Qed.

Lemma truthy_candidate (prefix suffix : string) :
  truthy (Some (prefix +:+ "_" +:+ suffix)) = true.
Proof.
  unfold truthy. rewrite bool_decide_eq_false_2; [done|].
  apply candidate_nonempty.
Qed.

Lemma is_gid_exist_false (groups : gmap nat Group) (g : string) :
  is_gid_exist groups g = false ↔ ∀ k r, groups !! k = Some r → gid r ≠ g.
Proof.
  unfold is_gid_exist. rewrite bool_decide_eq_false. split.
  - intros Hno k r Hk Hg. apply Hno. by exists k, r.
  - intros Hall (k & r & Hk & Hg). by apply (Hall k r).
Qed.

Lemma is_pid_exist_false (pages : gmap nat Page) (p : string) :
  is_pid_exist pages p = false ↔ ∀ k r, pages !! k = Some r → pid r ≠ p.
Proof.
  unfold is_pid_exist. rewrite bool_decide_eq_false. split.
  - intros Hno k r Hk Hp. apply Hno. by exists k, r.
  - intros Hall (k & r & Hk & Hp). by apply (Hall k r).
Qed.

Section IdentifierGeneratorFacts.

Variables GID_PREFIX PID_PREFIX : string.
Variable id_generator : nat → string.

Local Abbreviation gid_of i := (GID_PREFIX +:+ "_" +:+ id_generator i).
Local Abbreviation pid_of i := (PID_PREFIX +:+ "_" +:+ id_generator i).
Local Abbreviation gen_gid := (generate_gid GID_PREFIX id_generator).
Local Abbreviation gen_pid := (generate_pid PID_PREFIX id_generator).

(** One turn of the loop: a colliding draw is discarded and the loop
    goes on with the next draw, any other draw is returned. *)
Lemma generate_gid_step fuel groups drawn :
  gen_gid (S fuel) groups drawn =
    if is_gid_exist groups (gid_of drawn)
    then gen_gid fuel groups (S drawn)
    else Some (gid_of drawn, S drawn).
Proof.
  unfold generate_gid. cbn [generate_gid_loop].
  destruct (is_gid_exist groups _); [done|].
  destruct fuel; cbn [generate_gid_loop]; by rewrite truthy_candidate.
Qed.

Lemma generate_pid_step fuel pages drawn :
  gen_pid (S fuel) pages drawn =
    if is_pid_exist pages (pid_of drawn)
    then gen_pid fuel pages (S drawn)
    else Some (pid_of drawn, S drawn).
Proof.
  unfold generate_pid. cbn [generate_pid_loop].
  destruct (is_pid_exist pages _); [done|].
  destruct fuel; cbn [generate_pid_loop]; by rewrite truthy_candidate.
Qed.

Lemma generate_gid_sound fuel groups : ∀ drawn g drawn',
  gen_gid fuel groups drawn = Some (g, drawn') →
  ∃ j, drawn ≤ j ∧ drawn' = S j ∧ g = gid_of j
       ∧ is_gid_exist groups g = false
       ∧ ∀ i, drawn ≤ i < j → is_gid_exist groups (gid_of i) = true.
Proof.
  induction fuel as [|fuel IH]; intros drawn g drawn' Hrun; [done|].
  rewrite generate_gid_step in Hrun.
  destruct (is_gid_exist groups (gid_of drawn)) eqn:Hc.
  - destruct (IH _ _ _ Hrun) as (j & Hle & -> & -> & Hfree & Hbusy).
    exists j. split_and!; [lia|done|done|done|].
    intros i Hi. destruct (decide (i = drawn)) as [->|]; [done|].
    apply Hbusy. lia.
  - injection Hrun as <- <-. exists drawn. split_and!; [done|done|done|done|].
    intros i Hi. lia.
Qed.

Lemma generate_pid_sound fuel pages : ∀ drawn p drawn',
  gen_pid fuel pages drawn = Some (p, drawn') →
  ∃ j, drawn ≤ j ∧ drawn' = S j ∧ p = pid_of j
       ∧ is_pid_exist pages p = false
       ∧ ∀ i, drawn ≤ i < j → is_pid_exist pages (pid_of i) = true.
Proof.
  induction fuel as [|fuel IH]; intros drawn p drawn' Hrun; [done|].
  rewrite generate_pid_step in Hrun.
  destruct (is_pid_exist pages (pid_of drawn)) eqn:Hc.
  - destruct (IH _ _ _ Hrun) as (j & Hle & -> & -> & Hfree & Hbusy).
    exists j. split_and!; [lia|done|done|done|].
    intros i Hi. destruct (decide (i = drawn)) as [->|]; [done|].
    apply Hbusy. lia.
  - injection Hrun as <- <-. exists drawn. split_and!; [done|done|done|done|].
    intros i Hi. lia.
Qed.

(** While the candidates collide the loop keeps drawing; when every
    candidate collides, no amount of fuel makes it return. *)
Lemma generate_gid_starves groups : ∀ fuel drawn,
  (∀ i, drawn ≤ i < drawn + fuel → is_gid_exist groups (gid_of i) = true) →
  gen_gid fuel groups drawn = None.
Proof.
  induction fuel as [|fuel IH]; intros drawn Hall; [done|].
  rewrite generate_gid_step, (Hall drawn) by lia.
  apply IH. intros i Hi. apply Hall. lia.
Qed.

Lemma generate_gid_diverges groups fuel drawn :
  (∀ i, drawn ≤ i → is_gid_exist groups (gid_of i) = true) →
  gen_gid fuel groups drawn = None.
Proof. intros Hall. apply generate_gid_starves. intros i Hi. apply Hall. lia. Qed.

Lemma generate_pid_starves pages : ∀ fuel drawn,
  (∀ i, drawn ≤ i < drawn + fuel → is_pid_exist pages (pid_of i) = true) →
  gen_pid fuel pages drawn = None.
Proof.
  induction fuel as [|fuel IH]; intros drawn Hall; [done|].
  rewrite generate_pid_step, (Hall drawn) by lia.
  apply IH. intros i Hi. apply Hall. lia.
Qed.

Lemma generate_pid_diverges pages fuel drawn :
  (∀ i, drawn ≤ i → is_pid_exist pages (pid_of i) = true) →
  gen_pid fuel pages drawn = None.
Proof. intros Hall. apply generate_pid_starves. intros i Hi. apply Hall. lia. Qed.

(** A free candidate [n] draws ahead: the loop returns within [n + 1]
    turns. *)
Lemma generate_gid_terminates groups : ∀ n drawn,
  is_gid_exist groups (gid_of (drawn + n)) = false →
  ∃ r, gen_gid (S n) groups drawn = Some r.
Proof.
  induction n as [|n IH]; intros drawn Hfree; rewrite generate_gid_step.
  - rewrite Nat.add_0_r in Hfree. rewrite Hfree. eauto.
  - destruct (is_gid_exist groups (gid_of drawn)); [|eauto].
    apply IH. by replace (S drawn + n) with (drawn + S n) by lia.
Qed.

Lemma generate_pid_terminates pages : ∀ n drawn,
  is_pid_exist pages (pid_of (drawn + n)) = false →
  ∃ r, gen_pid (S n) pages drawn = Some r.
Proof.
  induction n as [|n IH]; intros drawn Hfree; rewrite generate_pid_step.
  - rewrite Nat.add_0_r in Hfree. rewrite Hfree. eauto.
  - destruct (is_pid_exist pages (pid_of drawn)); [|eauto].
    apply IH. by replace (S drawn + n) with (drawn + S n) by lia.
Qed.

End IdentifierGeneratorFacts.


(** A store and a random source that keep the loop busy for [n] turns. *)
Lemma generate_gid_needs_more (GID_PREFIX : string) (n : nat) :
  ∃ (id_generator : nat → string) (groups : gmap nat Group),
    generate_gid GID_PREFIX id_generator n groups 0 = None
    ∧ ∃ r, generate_gid GID_PREFIX id_generator (S n) groups 0 = Some r.
Proof.
  set (d := {| year := 2018; month := 1; day := 1 |}).
  set (taken := {| group_pk := Some 1; gid := GID_PREFIX +:+ "_a";
                   group_updated_on := d; group_created_on := d |}).
  exists (λ i, if decide (i < n) then "a" else "b"), {[ 1 := taken ]}.
  split.
  - apply generate_gid_starves. intros i Hi.
    rewrite decide_True by lia.
    apply bool_decide_eq_true. exists 1, taken.
    by rewrite lookup_singleton_eq.
  - apply generate_gid_terminates.
    rewrite decide_False by lia.
    apply is_gid_exist_false. intros k r Hk Heq.
    apply lookup_singleton_Some in Hk as [_ <-].
    cbn in Heq. by apply (inj (String.app GID_PREFIX)) in Heq.
Qed.

Lemma generate_pid_needs_more (PID_PREFIX : string) (n : nat) :
  ∃ (id_generator : nat → string) (pages : gmap nat Page),
    generate_pid PID_PREFIX id_generator n pages 0 = None
    ∧ ∃ r, generate_pid PID_PREFIX id_generator (S n) pages 0 = Some r.
Proof.
  set (d := {| year := 2018; month := 1; day := 1 |}).
  set (taken := {| page_pk := Some 1; group := None; page_language := "fa";
                   pid := PID_PREFIX +:+ "_a"; title := "t"; subtitle := "";
                   content := "c"; event := ""; image_caption := "";
                   reference := ""; website := ""; author := "";
                   page_is_active := false;
                   page_updated_on := d; page_created_on := d |}).
  exists (λ i, if decide (i < n) then "a" else "b"), {[ 1 := taken ]}.
  split.
  - apply generate_pid_starves. intros i Hi.
    rewrite decide_True by lia.
    apply bool_decide_eq_true. exists 1, taken.
    by rewrite lookup_singleton_eq.
  - apply generate_pid_terminates.
    rewrite decide_False by lia.
    apply is_pid_exist_false. intros k r Hk Heq.
    apply lookup_singleton_Some in Hk as [_ <-].
    cbn in Heq. by apply (inj (String.app PID_PREFIX)) in Heq.
Qed.

(** C1. Every identifier the Group or Page generator returns is the
    configured prefix, the separator [_] and the suffix drawn last, and at
    the moment of return no persisted record of that kind holds it: a
    call against a populated store, from any state of the random source,
    never returns an identifier that is already present. *)
Theorem generated_id_prefixed_and_fresh
    (GID_PREFIX PID_PREFIX : string) (id_generator : nat → string)
    (fuel : nat) (groups : gmap nat Group) (pages : gmap nat Page)
    (drawn : nat) :
  (∀ g drawn',
     generate_gid GID_PREFIX id_generator fuel groups drawn = Some (g, drawn') →
     drawn < drawn'
     ∧ g = GID_PREFIX +:+ "_" +:+ id_generator (pred drawn')
     ∧ is_gid_exist groups g = false
     ∧ ∀ k r, groups !! k = Some r → gid r ≠ g)
  ∧ (∀ p drawn',
     generate_pid PID_PREFIX id_generator fuel pages drawn = Some (p, drawn') →
     drawn < drawn'
     ∧ p = PID_PREFIX +:+ "_" +:+ id_generator (pred drawn')
     ∧ is_pid_exist pages p = false
     ∧ ∀ k r, pages !! k = Some r → pid r ≠ p).
Proof.
  split.
  - intros g drawn' Hrun.
    apply generate_gid_sound in Hrun as (j & Hle & -> & -> & Hfree & _).
    split_and!; [lia|done|done|by apply is_gid_exist_false].
  - intros p drawn' Hrun.
    apply generate_pid_sound in Hrun as (j & Hle & -> & -> & Hfree & _).
    split_and!; [lia|done|done|by apply is_pid_exist_false].
Qed.

(** C5. The retry loop has no bound of its own: it returns exactly when
    some draw ahead does not collide with a persisted identifier, it
    never returns when every candidate collides, and for every number of
    turns there are a store and a random source that need more. *)
Theorem generate_id_retries_unbounded
    (GID_PREFIX PID_PREFIX : string) :
  (∀ (id_generator : nat → string) (groups : gmap nat Group) (drawn : nat),
     ((∃ fuel r, generate_gid GID_PREFIX id_generator fuel groups drawn = Some r)
      ↔ ∃ i, drawn ≤ i
             ∧ is_gid_exist groups (GID_PREFIX +:+ "_" +:+ id_generator i) = false)
     ∧ ((∀ i, drawn ≤ i →
           is_gid_exist groups (GID_PREFIX +:+ "_" +:+ id_generator i) = true) →
        ∀ fuel, generate_gid GID_PREFIX id_generator fuel groups drawn = None))
  ∧ (∀ (id_generator : nat → string) (pages : gmap nat Page) (drawn : nat),
     ((∃ fuel r, generate_pid PID_PREFIX id_generator fuel pages drawn = Some r)
      ↔ ∃ i, drawn ≤ i
             ∧ is_pid_exist pages (PID_PREFIX +:+ "_" +:+ id_generator i) = false)
     ∧ ((∀ i, drawn ≤ i →
           is_pid_exist pages (PID_PREFIX +:+ "_" +:+ id_generator i) = true) →
        ∀ fuel, generate_pid PID_PREFIX id_generator fuel pages drawn = None))
  ∧ (∀ n, ∃ (id_generator : nat → string) (groups : gmap nat Group),
       generate_gid GID_PREFIX id_generator n groups 0 = None
       ∧ ∃ r, generate_gid GID_PREFIX id_generator (S n) groups 0 = Some r)
  ∧ (∀ n, ∃ (id_generator : nat → string) (pages : gmap nat Page),
       generate_pid PID_PREFIX id_generator n pages 0 = None
       ∧ ∃ r, generate_pid PID_PREFIX id_generator (S n) pages 0 = Some r).
Proof.
  split_and!.
  - intros id_generator groups drawn. split.
    + split.
      * intros (fuel & [g drawn'] & Hrun).
        apply generate_gid_sound in Hrun as (j & Hle & _ & -> & Hfree & _).
        eauto.
      * intros (i & Hle & Hfree).
        replace i with (drawn + (i - drawn)) in Hfree by lia.
        apply generate_gid_terminates in Hfree as [r Hr]. eauto.
    + intros Hall fuel. by apply generate_gid_diverges.
  - intros id_generator pages drawn. split.
    + split.
      * intros (fuel & [p drawn'] & Hrun).
        apply generate_pid_sound in Hrun as (j & Hle & _ & -> & Hfree & _).
        eauto.
      * intros (i & Hle & Hfree).
        replace i with (drawn + (i - drawn)) in Hfree by lia.
        apply generate_pid_terminates in Hfree as [r Hr]. eauto.
    + intros Hall fuel. by apply generate_pid_diverges.
  - apply generate_gid_needs_more.
  - apply generate_pid_needs_more.
Qed.


(* ===================================================================== *)
(** * Theorems: language switch *)
(* ===================================================================== *)

Lemma split_cons (sep : ascii) (s : string) :
  ∃ part parts, split sep s = part :: parts.
Proof.
  destruct s as [|c s]; cbn; [eauto|].
  case_bool_decide; [eauto|]. destruct (split sep s); eauto.
Qed.

(** [sep.join(s.split(sep)) == s]. *)
Lemma concat_split (sep : ascii) (s : string) :
  String.concat (String sep EmptyString) (split sep s) = s.
Proof.
  induction s as [|c s IH]; [done|]. cbn [split].
  destruct (split_cons sep s) as (part & parts & Hs). rewrite Hs in IH |- *.
  case_bool_decide as Hc.
  - subst c. by rewrite <- IH.
  - destruct parts as [|part' parts]; by rewrite <- IH.
Qed.

(** The first piece of a split holds no separator. *)
Lemma split_head_no_sep (sep : ascii) (s : string) : ∀ part parts,
  split sep s = part :: parts → sep ∉ list_ascii_of_string part.
Proof.
  induction s as [|c s IH]; intros part parts; cbn [split].
  - intros [= <- <-]. cbn. apply not_elem_of_nil.
  - case_bool_decide as Hc.
    + intros [= <- <-]. cbn. apply not_elem_of_nil.
    + destruct (split_cons sep s) as (part' & parts' & Hs). rewrite Hs.
      intros [= <- <-]. cbn. apply not_elem_of_cons. split; [done|].
      by apply (IH part' parts').
Qed.

Lemma string_app_cons (a : ascii) (s t : string) :
  String a s +:+ t = String a (s +:+ t).
Proof. reflexivity. Qed.

Lemma string_app_nil_r (s : string) : s +:+ "" = s.
Proof. induction s; [done|]. rewrite string_app_cons. by f_equal. Qed.

Lemma string_app_assoc (a b c : string) : (a +:+ b) +:+ c = a +:+ b +:+ c.
Proof. induction a; [done|]. rewrite !string_app_cons. by f_equal. Qed.

(** What follows the first piece: nothing, or a separator and the join
    of the other pieces. *)
Lemma split_head_rest (sep : ascii) (s : string) (part : string) (parts : list string) :
  split sep s = part :: parts →
  s = part +:+ match parts with
               | [] => EmptyString
               | _ :: _ => String sep (String.concat (String sep EmptyString) parts)
               end.
Proof.
  intros Hs. pose proof (concat_split sep s) as Hj. rewrite Hs in Hj.
  destruct parts.
  - rewrite string_app_nil_r. by rewrite <- Hj.
  - by rewrite <- Hj.
Qed.

Section LanguageSwitchFacts.

Variable LANGUAGES : list (string * string).

Local Abbreviation codes := (lang_codes LANGUAGES).
Local Abbreviation switch := (switch_lang_code LANGUAGES).

(** On a path that starts with the separator and a supported language
    the rewriter reads [parts[1]] in range and joins the edited pieces. *)
Lemma switch_lang_code_valid (s language : string) (part : string) (parts : list string) :
  language ∈ codes →
  split "/" s = part :: parts →
  switch (String "/" s) language =
    Ok (if bool_decide (part ∈ codes)
        then String.concat "/" (EmptyString :: language :: parts)
        else String.concat "/" (("/" +:+ language) :: part :: parts)).
Proof.
  intros Hlang Hs. unfold switch_lang_code.
  rewrite bool_decide_eq_false_2 by done.
  rewrite bool_decide_eq_false_2 by (intros Hne; by apply Hne).
  rewrite bool_decide_eq_false_2 by (intros Hno; by apply Hno).
  cbn [split]. rewrite bool_decide_eq_true_2 by done. rewrite Hs.
  cbn [lookup list_lookup]. by case_bool_decide.
Qed.

End LanguageSwitchFacts.

(** C7. The language-switch rewriter raises exactly on invalid input: an
    empty path, a path that does not start with [/], or a language code
    that is not supported.  On every other input it returns: the path is
    [/], a first segment without [/], and a rest that is empty or starts
    with [/]; when the segment is a supported code the result is [/], the
    new language and the rest, otherwise it is [/], the new language and
    the whole path. *)
Theorem switch_lang_code_raises_iff_invalid
    (LANGUAGES : list (string * string)) (path_ language : string) :
  (raises (switch_lang_code LANGUAGES path_ language)
   ↔ path_ = "" ∨ (∀ s, path_ ≠ String "/" s)
     ∨ (language ∉ lang_codes LANGUAGES))
  ∧ (path_ ≠ "" → (∃ s, path_ = String "/" s) → language ∈ lang_codes LANGUAGES →
     ∃ segment rest,
       path_ = "/" +:+ segment +:+ rest
       ∧ ("/"%char ∉ list_ascii_of_string segment)
       ∧ (rest = "" ∨ ∃ r, rest = String "/" r)
       ∧ switch_lang_code LANGUAGES path_ language =
           Ok (if bool_decide (segment ∈ lang_codes LANGUAGES)
               then "/" +:+ language +:+ rest
               else "/" +:+ language +:+ path_)).
Proof.
  assert (Hvalid : ∀ s, (language ∈ lang_codes LANGUAGES) →
    ∃ segment rest,
       String "/" s = "/" +:+ segment +:+ rest
       ∧ ("/"%char ∉ list_ascii_of_string segment)
       ∧ (rest = "" ∨ ∃ r, rest = String "/" r)
       ∧ switch_lang_code LANGUAGES (String "/" s) language =
           Ok (if bool_decide (segment ∈ lang_codes LANGUAGES)
               then "/" +:+ language +:+ rest
               else "/" +:+ language +:+ String "/" s)).
  { intros s Hlang.
    destruct (split_cons "/" s) as (part & parts & Hs).
    pose proof (split_head_rest _ _ _ _ Hs) as Hrest.
    pose proof (split_head_no_sep _ _ _ _ Hs) as Hno.
    pose proof (concat_split "/" s) as Hj. rewrite Hs in Hj.
    exists part, (match parts with
                  | [] => EmptyString
                  | _ :: _ => String "/" (String.concat "/" parts)
                  end).
    split_and!.
    - rewrite string_app_cons. f_equal. exact Hrest.
    - exact Hno.
    - destruct parts; [by left | right; eauto].
    - rewrite (switch_lang_code_valid _ _ _ _ _ Hlang Hs).
      f_equal. case_bool_decide.
      + destruct parts as [|part' parts]; [|done].
        by rewrite string_app_nil_r.
      + trans (("/" +:+ language) +:+ "/" +:+ String.concat "/" (part :: parts));
          [done|].
        by rewrite Hj, string_app_assoc. }
  split.
  - split.
    + intros [e He]. destruct path_ as [|c0 s]; [by left|].
      destruct (decide (c0 = "/"%char)) as [->|Hc0].
      * destruct (decide (language ∈ lang_codes LANGUAGES)) as [Hlang|Hlang].
        -- destruct (Hvalid s Hlang) as (? & ? & _ & _ & _ & Hok).
           congruence.
        -- by right; right.
      * right; left. intros s' [= ? ?]. by apply Hc0.
    + intros Hinvalid. unfold switch_lang_code.
      case_bool_decide; [by eexists|].
      destruct path_ as [|c0 s]; [by eexists|].
      case_bool_decide; [by eexists|].
      case_bool_decide; [by eexists|].
      destruct Hinvalid as [?|[Hstart|?]]; [done| |done].
      destruct (decide (c0 = "/"%char)) as [->|]; [|done].
      by destruct (Hstart s).
  - intros _ [s ->] Hlang. by apply Hvalid.
Qed.


(* ===================================================================== *)
(** * Theorems: [Report.save] and the reference identifier *)
(* ===================================================================== *)

Lemma rid_taken_insert (tbl : gmap nat Report) (k : nat) (r : Report) (v : option string) :
  rid_taken (<[k:=r]> tbl) k v = rid_taken tbl k v.
Proof.
  destruct v as [v|]; [|done]. cbn. apply bool_decide_ext. split.
  - intros (k' & r' & Hk' & Hne & Hv). exists k', r'.
    by rewrite lookup_insert_ne in Hk'.
  - intros (k' & r' & Hk' & Hne & Hv). exists k', r'.
    by rewrite lookup_insert_ne.
Qed.

(** The write of an instance without a key, when the next key of the
    sequence is free. *)
Lemma Report_save_base_insert (instance : Report) (st : State) :
  report_pk instance = None →
  rows (reports st) !! next_pk (reports st) = None →
  rid_taken (rows (reports st)) (next_pk (reports st)) (rid instance) = false →
  let k := next_pk (reports st) in
  let written := set_report_dates (today st) (today st)
                   (set_report_pk (Some k) instance) in
  Report_save_base instance st =
    ({| reports := {| rows := <[k:=written]> (rows (reports st));
                      next_pk := S k |};
        today := today st; admin := admin st;
        trace := trace st ++ [Persisted true k] |},
     Ok (written, true)).
Proof.
  intros Hpk Hfree Hrid k written. subst k written. unfold Report_save_base.
  rewrite Hpk. cbn [default]. rewrite Hrid.
  rewrite (bool_decide_eq_true_2 _ Hfree). cbn.
  do 4 f_equal. lia.
Qed.

(** The write of an instance whose row exists. *)
Lemma Report_save_base_update (instance stored : Report) (k : nat) (st : State) :
  report_pk instance = Some k →
  rows (reports st) !! k = Some stored →
  Report_save_base instance st =
    if rid_taken (rows (reports st)) k (rid instance) then
      (st, Raise (IntegrityError "web_report.rid"))
    else
      let written := set_report_dates (today st) (report_created_on instance)
                       (set_report_pk (Some k) instance) in
      ({| reports := {| rows := <[k:=written]> (rows (reports st));
                        next_pk := next_pk (reports st) `max` S k |};
          today := today st; admin := admin st;
          trace := trace st ++ [Persisted false k] |},
       Ok (written, false)).
Proof.
  intros Hpk Hrow. unfold Report_save_base. cbv zeta.
  rewrite Hpk. cbn [default].
  rewrite (bool_decide_eq_false_2 (rows (reports st) !! k = None))
    by (by rewrite Hrow).
  rewrite bool_decide_eq_false_2 by done. done.
Qed.

Lemma Report_save_base_cases (instance : Report) (st : State) :
  (∃ e, Report_save_base instance st = (st, Raise e))
  ∨ (∃ (k : nat) (created : bool),
       let written := set_report_dates (today st)
                        (if created then today st else report_created_on instance)
                        (set_report_pk (Some k) instance) in
       Report_save_base instance st =
         ({| reports := {| rows := <[k:=written]> (rows (reports st));
                           next_pk := next_pk (reports st) `max` S k |};
             today := today st; admin := admin st;
             trace := trace st ++ [Persisted created k] |},
          Ok (written, created))).
Proof.
  unfold Report_save_base. cbv zeta.
  destruct (_ && _); [left; eauto|].
  destruct (rid_taken _ _ _); [left; eauto|].
  right. by eexists _, _.
Qed.

Section ReferenceIdFacts.

Variable RID_PREFIX : string.
Variable swap_prefix : string → string → string.

Local Abbreviation save := (Report_save RID_PREFIX swap_prefix).

(** Saving an instance whose row exists: one write, the receiver sees
    [created=False] and does nothing. *)
Lemma Report_save_update (depth : nat) (instance stored : Report) (k : nat) (st : State) :
  report_pk instance = Some k →
  rows (reports st) !! k = Some stored →
  save (S depth) instance st =
    if rid_taken (rows (reports st)) k (rid instance) then
      (st, Raise (IntegrityError "web_report.rid"))
    else
      let written := set_report_dates (today st) (report_created_on instance)
                       (set_report_pk (Some k) instance) in
      ({| reports := {| rows := <[k:=written]> (rows (reports st));
                        next_pk := next_pk (reports st) `max` S k |};
          today := today st; admin := admin st;
          trace := trace st ++ [Persisted false k] |},
       Ok written).
Proof.
  intros Hpk Hrow. cbn [Report_save]. unfold bind.
  rewrite (Report_save_base_update _ _ _ _ Hpk Hrow).
  by destruct (rid_taken _ _ _).
Qed.

(** What every save leaves alone, and what it reports. *)
Lemma Report_save_frame (depth : nat) : ∀ instance st st' outcome,
  save depth instance st = (st', outcome) →
  admin st' = admin st ∧ today st' = today st
  ∧ (∃ events, trace st' = trace st ++ events ∧ Forall silent events)
  ∧ ∀ instance', outcome = Ok instance' →
      same_content instance instance'
      ∧ ∃ k, report_pk instance' = Some k
             ∧ rows (reports st') !! k = Some instance'.
Proof.
  induction depth as [|depth IH]; intros instance st st' outcome Hrun.
  - injection Hrun as <- <-. split_and!; [done|done| |done].
    exists []. by rewrite app_nil_r.
  - cbn [Report_save] in Hrun. unfold bind in Hrun.
    destruct (Report_save_base_cases instance st) as [[e He]|(k & created & Hw)].
    + rewrite He in Hrun. injection Hrun as <- <-.
      split_and!; [done|done| |done].
      exists []. by rewrite app_nil_r.
    + cbv zeta in Hw. rewrite Hw in Hrun. clear Hw.
      destruct created; cbn [generate_rid] in Hrun.
      * unfold bind, emit in Hrun. cbn [fst snd] in Hrun.
        apply IH in Hrun as (Hadmin & Htoday & (events & Htrace & Hsilent) & Hok).
        cbn in Hadmin, Htoday, Htrace.
        split_and!; [done|done| |].
        -- eexists. rewrite Htrace, <- !app_assoc. split; [done|].
           repeat constructor. done.
        -- intros instance' ->.
           destruct (Hok _ eq_refl) as [(?&?&?&?&?&?) Hrow].
           split; [|done]. by split_and!.
      * injection Hrun as <- <-. cbn.
        split_and!; [done|done| |].
        -- eexists. split; [done|]. by repeat constructor.
        -- intros instance' [= <-]. split; [by split_and!|].
           exists k. split; [done|]. cbn. by rewrite lookup_insert_eq.
Qed.

End ReferenceIdFacts.

(** C4. The reference identifier of a report is derived once,
    immediately after the first successful persistence of the report: it
    is [swap_prefix] applied to the page's public identifier, [_] and the
    storage-assigned key, with the configured prefix; a save of a report
    whose row exists derives nothing and leaves [rid] as it is. *)
Theorem rid_derived_once_after_first_save
    (RID_PREFIX : string) (swap_prefix : string → string → string) :
  (∀ depth instance st,
     let k := next_pk (reports st) in
     let new_rid :=
       swap_prefix (pid (page instance) +:+ "_" +:+ pretty k) RID_PREFIX in
     report_pk instance = None →
     rows (reports st) !! k = None →
     rid_taken (rows (reports st)) k (rid instance) = false →
     rid_taken (rows (reports st)) k (Some new_rid) = false →
     ∃ st' instance',
       Report_save RID_PREFIX swap_prefix (S (S depth)) instance st
         = (st', Ok instance')
       ∧ report_pk instance' = Some k
       ∧ rid instance' = Some new_rid
       ∧ rows (reports st') !! k = Some instance'
       ∧ trace st' = trace st ++ [Persisted true k;
                                  RidAssigned (Some k) new_rid;
                                  Persisted false k])
  ∧ (∀ depth instance stored k st,
     report_pk instance = Some k →
     rows (reports st) !! k = Some stored →
     ∃ st' outcome events,
       Report_save RID_PREFIX swap_prefix (S depth) instance st = (st', outcome)
       ∧ trace st' = trace st ++ events
       ∧ Forall keeps_rid events
       ∧ (∀ instance', outcome = Ok instance' → rid instance' = rid instance)
       ∧ (rid instance = rid stored →
          ∀ r, rows (reports st') !! k = Some r → rid r = rid stored)).
Proof.
  split.
  - intros depth instance st k new_rid Hpk Hfree Hold Hnew.
    cbn [Report_save]. unfold bind at 1.
    rewrite (Report_save_base_insert _ _ Hpk Hfree Hold). cbv zeta. fold k.
    cbn [generate_rid]. unfold bind at 1. unfold emit. cbn [fst snd].
    set (written := set_report_dates _ _ _).
    set (st1 := Build_State _ _ _ _).
    assert (Hrow : rows (reports st1) !! k = Some written)
      by apply lookup_insert_eq.
    unfold bind.
    rewrite (Report_save_base_update (set_rid _ written) written k st1 eq_refl Hrow).
    cbn [rid set_rid]. unfold st1 at 1. cbn [rows reports].
    rewrite rid_taken_insert. cbn [report_pk written set_report_dates set_report_pk
      page pid set_rid str_pk]. fold new_rid. rewrite Hnew.
    cbv zeta. cbn [generate_rid ret]. eexists _, _. split; [done|].
    split_and!; [done|done| |].
    + cbn. apply lookup_insert_eq.
    + cbn. by rewrite <- !app_assoc.
  - intros depth instance stored k st Hpk Hrow.
    rewrite (Report_save_update _ _ _ _ _ _ _ Hpk Hrow).
    destruct (rid_taken _ _ _).
    + exists st, (Raise (IntegrityError "web_report.rid")), [].
      split_and!; [done|by rewrite app_nil_r|done|done|].
      intros _ r Hr. congruence.
    + cbv zeta. eexists _, _, [_]. split_and!; [done|done| | |].
      * by repeat constructor.
      * by intros instance' [= <-].
      * cbn. intros Hsame r. rewrite lookup_insert_eq. by intros [= <-].
Qed.


(* ===================================================================== *)
(** * Theorems: the admin *)
(* ===================================================================== *)


Section AdminFacts.

Variable RID_PREFIX : string.
Variable swap_prefix : string → string → string.
Variable default_escape_return : bool.
Variable run : PersianEditors → string → string.
Variable ugettext_lazy : string → string.

Local Abbreviation save_model :=
  (ReportAdmin_save_model RID_PREFIX swap_prefix default_escape_return run
                          ugettext_lazy).
Local Abbreviation save := (Report_save RID_PREFIX swap_prefix).
Local Abbreviation prepared := (normalised default_escape_return run).

(** The first status-changing save: the status is writable and the
    object is decided. *)
Lemma save_model_first_change depth obj cleaned_data submitted st :
  "status" ∉ readonly_fields (admin st) →
  status obj ≠ STATUS_IS_PENDING →
  cleaned_data !! "description" = Some submitted →
  save_model depth obj cleaned_data st =
    match save depth
            (prepared (if bool_decide (submitted = "")
                       then set_description (ugettext_lazy "-") obj
                       else obj)) st with
    | (st1, Ok obj') =>
        (({| reports := reports st1; today := today st1; admin := admin st1;
             trace := trace st1
                      ++ [EmailSent "emails/report_result.html" [reporter obj'] obj'] |}),
         Ok obj')
    | (st1, Raise e) => (st1, Raise e)
    end.
Proof.
  intros Hrw Hdecided Hsub. unfold ReportAdmin_save_model.
  unfold bind at 1. unfold get at 1. cbv beta iota zeta.
  rewrite (bool_decide_eq_true_2 _ Hrw).
  rewrite (bool_decide_eq_false_2 _ Hdecided). cbn [negb andb].
  unfold bind at 1. unfold bind at 1. unfold getitem. rewrite Hsub.
  unfold ret at 1. cbv beta iota. unfold ret at 1. cbv beta iota.
  unfold truthy. unfold bind at 1.
  replace (if negb (bool_decide (submitted = ""))
           then obj else set_description (ugettext_lazy "-") obj)
    with (if bool_decide (submitted = "")
          then set_description (ugettext_lazy "-") obj else obj)
    by (by destruct (bool_decide _)).
  change (set_body _ _) with
    (prepared (if bool_decide (submitted = "")
               then set_description (ugettext_lazy "-") obj else obj)).
  destruct (save depth _ st) as [st1 [obj'|e]]; [|done].
  reflexivity.
Qed.

(** A save that reads no description: the status is read-only or the
    object is pending. *)
Lemma save_model_no_change depth obj cleaned_data st :
  "status" ∈ readonly_fields (admin st) ∨ status obj = STATUS_IS_PENDING →
  save_model depth obj cleaned_data st =
    match save depth (prepared obj) st with
    | (st1, Ok obj') => (st1, Ok obj')
    | (st1, Raise e) => (st1, Raise e)
    end.
Proof.
  intros Hcase. unfold ReportAdmin_save_model.
  unfold bind at 1. unfold get at 1. cbv beta iota zeta.
  assert (bool_decide ("status" ∉ readonly_fields (admin st))
          && negb (bool_decide (status obj = STATUS_IS_PENDING)) = false)
    as ->.
  { destruct Hcase as [Hro|Hp].
    - rewrite bool_decide_eq_false_2; [done|]. by intros Hn.
    - rewrite (bool_decide_eq_true_2 _ Hp). cbn. apply andb_false_r. }
  unfold bind at 1. unfold ret at 1. cbv beta iota.
  unfold bind at 1.
  change (set_body _ _) with (prepared obj).
  destruct (save depth _ st) as [st1 [obj'|e]]; [|done].
  destruct st1. reflexivity.
Qed.

Lemma save_model_key_error depth obj cleaned_data st :
  "status" ∉ readonly_fields (admin st) →
  status obj ≠ STATUS_IS_PENDING →
  cleaned_data !! "description" = None →
  save_model depth obj cleaned_data st = (st, Raise (KeyError "description")).
Proof.
  intros Hrw Hdecided Hsub. unfold ReportAdmin_save_model.
  unfold bind at 1. unfold get at 1. cbv beta iota zeta.
  rewrite (bool_decide_eq_true_2 _ Hrw).
  rewrite (bool_decide_eq_false_2 _ Hdecided). cbn [negb andb].
  unfold bind at 1. unfold bind at 1. unfold getitem. by rewrite Hsub.
Qed.


End AdminFacts.


(** C3. On the first status-changing save of a report (the status field
    is writable and the saved status is no longer pending) an empty
    submitted description is replaced by the placeholder, which is not
    empty, before the description is normalised; the record is persisted
    and then one notification is sent, to the reporter's address.  A save
    with status pending sends no notification. *)
Theorem first_status_change_notifies_once
    (RID_PREFIX : string) (swap_prefix : string → string → string)
    (default_escape_return : bool) (run : PersianEditors → string → string)
    (ugettext_lazy : string → string) :
  (∀ depth obj cleaned_data submitted stored k st,
     (∀ msgid, msgid ≠ "" → ugettext_lazy msgid ≠ "") →
     "status" ∉ readonly_fields (admin st) →
     status obj ≠ STATUS_IS_PENDING →
     cleaned_data !! "description" = Some submitted →
     report_pk obj = Some k →
     rows (reports st) !! k = Some stored →
     rid_taken (rows (reports st)) k (rid obj) = false →
     ∃ st' obj',
       ReportAdmin_save_model RID_PREFIX swap_prefix default_escape_return run
         ugettext_lazy (S depth) obj cleaned_data st = (st', Ok obj')
       ∧ (submitted = "" →
          ugettext_lazy "-" ≠ ""
          ∧ description obj' =
              run (full_editor default_escape_return) (ugettext_lazy "-"))
       ∧ (submitted ≠ "" →
          description obj' =
            run (full_editor default_escape_return) (description obj))
       ∧ status obj' = status obj
       ∧ rows (reports st') !! k = Some obj'
       ∧ trace st' =
           trace st ++ [Persisted false k;
                        EmailSent "emails/report_result.html" [reporter obj] obj'])
  ∧ (∀ depth obj cleaned_data st st' outcome,
     status obj = STATUS_IS_PENDING →
     ReportAdmin_save_model RID_PREFIX swap_prefix default_escape_return run
       ugettext_lazy depth obj cleaned_data st = (st', outcome) →
     ∃ events, trace st' = trace st ++ events ∧ Forall silent events).
Proof.
  split.
  - intros depth obj cleaned_data submitted stored k st
      Hgettext Hrw Hdecided Hsub Hpk Hrow Hrid.
    rewrite (save_model_first_change _ _ _ _ _ _ _ _ submitted) by done.
    set (obj0 := if bool_decide (submitted = "") then _ else _).
    assert (Hpk0 : report_pk (normalised default_escape_return run obj0) = Some k)
      by (unfold obj0; by case_bool_decide).
    assert (Hrid0 : rid (normalised default_escape_return run obj0) = rid obj)
      by (unfold obj0; by case_bool_decide).
    rewrite (Report_save_update _ _ _ _ _ _ _ Hpk0 Hrow), Hrid0, Hrid.
    cbv zeta. eexists _, _. split; [done|].
    split_and!.
    + intros ->. split; [by apply Hgettext|]. done.
    + intros Hne. unfold obj0. by rewrite bool_decide_eq_false_2.
    + unfold obj0. by case_bool_decide.
    + cbn. apply lookup_insert_eq.
    + cbn. rewrite <- app_assoc. do 4 f_equal.
      unfold obj0. by case_bool_decide.
  - intros depth obj cleaned_data st st' outcome Hpending Hrun.
    rewrite save_model_no_change in Hrun by (by right).
    destruct (Report_save _ _ depth _ st) as [st1 [obj1|e]] eqn:Hsave;
      injection Hrun as <- <-;
      by apply Report_save_frame in Hsave as (_ & _ & Htrace & _).
Qed.

(** The change request that decides a pending report: the submitted
    status and description reach the object, an empty description gives
    way to the placeholder, the row is written and one notification
    follows; the stored description is a normal form when the normaliser
    is idempotent. *)
Lemma change_view_first_decision
    (RID_PREFIX : string) (swap_prefix : string → string → string)
    (default_escape_return : bool) (run : PersianEditors → string → string)
    (ugettext_lazy : string → string)
    (depth k : nat) (POST : gmap string string) (st : State) (stored : Report)
    (v : string) (decision : Status) :
  rows (reports st) !! k = Some stored →
  report_pk stored = Some k →
  status stored = STATUS_IS_PENDING →
  rid_taken (rows (reports st)) k (rid stored) = false →
  POST !! "status" = Some v →
  Status_of_value v = Some decision →
  decision ≠ STATUS_IS_PENDING →
  let submitted := default "" (POST !! "description") in
  ∃ st' obj',
    change_view RID_PREFIX swap_prefix default_escape_return run ugettext_lazy
      (S depth) k POST st = (st', Ok (Some obj'))
    ∧ rows (reports st') !! k = Some obj'
    ∧ report_pk obj' = Some k
    ∧ status obj' = decision
    ∧ description obj' =
        run (full_editor default_escape_return)
            (if bool_decide (submitted = "") then ugettext_lazy "-" else submitted)
    ∧ trace st' =
        trace st ++ [Persisted false k;
                     EmailSent "emails/report_result.html" [reporter stored] obj']
    ∧ ((∀ text, run (full_editor default_escape_return)
                    (run (full_editor default_escape_return) text)
                = run (full_editor default_escape_return) text) →
       run (full_editor default_escape_return) (description obj')
         = description obj').
Proof.
  intros Hrow Hpk Hpending Hrid Hpost Hvalue Hdecided submitted.
  unfold change_view.
  unfold bind at 1. unfold get at 1. cbv beta iota. rewrite Hrow.
  unfold bind at 1. unfold get_readonly_fields.
  unfold bind at 1. unfold get at 1. cbv beta iota zeta.
  rewrite (bool_decide_eq_true_2 _ Hpending). cbn [negb].
  unfold bind at 1. unfold put at 1. cbv beta iota.
  unfold ret at 1. cbv beta iota.
  cbn [readonly_fields].
  set (ro := ["view_page"; _; _; _; _; _]).
  assert (filter (λ f : string, f ∉ ro) ["description"; "status"]
          = ["description"; "status"]) as -> by (by vm_compute).
  assert (clean ["description"; "status"] POST
          = Some (<["status":=v]> {[ "description" := submitted ]})) as ->.
  { unfold clean.
    rewrite (bool_decide_eq_true_2 ("description" ∈ _)) by set_solver.
    rewrite (bool_decide_eq_true_2 ("status" ∈ _)) by set_solver.
    by rewrite Hpost, Hvalue. }
  set (cleaned_data := <["status":=v]> _).
  assert (Hdesc : cleaned_data !! "description" = Some submitted).
  { unfold cleaned_data. rewrite lookup_insert_ne by done.
    apply lookup_singleton_eq. }
  assert (Hstatus : cleaned_data !! "status" = Some v)
    by apply lookup_insert_eq.
  assert (construct_instance cleaned_data stored
          = set_status decision (set_description submitted stored)) as ->.
  { unfold construct_instance. rewrite Hdesc, Hstatus. cbn. by rewrite Hvalue. }
  unfold bind at 1.
  rewrite (save_model_first_change _ _ _ _ _ _ _ _ submitted);
    [|cbn; unfold ro; apply (bool_decide_unpack _); by vm_compute|done|done].
  set (obj0 := if bool_decide (submitted = "") then _ else _).
  assert (Hpk0 : report_pk (normalised default_escape_return run obj0) = Some k)
    by (unfold obj0; by case_bool_decide).
  assert (Hrid0 : rid (normalised default_escape_return run obj0) = rid stored)
    by (unfold obj0; by case_bool_decide).
  rewrite (Report_save_update _ _ _ _ stored k _ Hpk0) by done.
  rewrite Hrid0. cbn [set_admin reports rows]. rewrite Hrid. cbv zeta.
  assert (Hd : description (normalised default_escape_return run obj0)
               = run (full_editor default_escape_return)
                     (if bool_decide (submitted = "")
                      then ugettext_lazy "-" else submitted))
    by (unfold obj0; by case_bool_decide).
  eexists _, _. split; [done|].
  split; [cbn; apply lookup_insert_eq|].
  split; [done|].
  split; [unfold obj0; by case_bool_decide|].
  split; [exact Hd|].
  split.
  - cbn. rewrite <- app_assoc. do 4 f_equal. unfold obj0. by case_bool_decide.
  - intros Hidem. cbn [description set_report_dates set_report_pk].
    fold (description (normalised default_escape_return run obj0)).
    by rewrite Hd, Hidem.
Qed.





(* ===================================================================== *)
(** * Theorems: one page per group and language *)
(* ===================================================================== *)

Lemma group_language_taken_true (tbl : gmap nat Page) (k k' : nat) (p : Page)
    (g : string) (lang : string) :
  tbl !! k' = Some p → k' ≠ k → group p = Some g → page_language p = lang →
  group_language_taken tbl k (Some g) lang = true.
Proof.
  intros Hrow Hne Hg Hl. apply bool_decide_eq_true. by exists k', p.
Qed.

Lemma group_language_taken_false (tbl : gmap nat Page) (k : nat)
    (g : string) (lang : string) :
  group_language_taken tbl k (Some g) lang = false →
  ∀ k' p, tbl !! k' = Some p → k' ≠ k → group p = Some g →
          page_language p ≠ lang.
Proof.
  intros Hfree k' p Hrow Hne Hg Hl.
  by rewrite (group_language_taken_true tbl k k' p g lang) in Hfree.
Qed.

(** A save keeps the constraint: the row it writes was checked against
    every other row. *)
Lemma Page_save_keeps_constraint (today : datetime) (instance : Page) (tbl : Table Page) :
  one_page_per_group_language (rows tbl) →
  one_page_per_group_language (rows (Page_save today instance tbl).1).
Proof.
  intros Hinv. unfold Page_save. cbv zeta.
  destruct (_ && _); [done|].
  destruct (pid_taken _ _ _); [done|].
  destruct (group_language_taken _ _ _ _) eqn:Hfree; [done|].
  cbn [fst rows]. set (k := default _ _) in *.
  intros k1 k2 p1 p2 g Hk1 Hk2 Hg1 Hg2 Hlang.
  destruct (decide (k1 = k)) as [->|Hne1], (decide (k2 = k)) as [->|Hne2];
    [done| | |].
  - rewrite lookup_insert_eq in Hk1. rewrite lookup_insert_ne in Hk2 by done.
    injection Hk1 as <-. cbn in Hg1, Hlang. rewrite Hg1 in Hfree.
    by destruct (group_language_taken_false _ _ _ _ Hfree k2 p2).
  - rewrite lookup_insert_eq in Hk2. rewrite lookup_insert_ne in Hk1 by done.
    injection Hk2 as <-. cbn in Hg2, Hlang. rewrite Hg2 in Hfree.
    by destruct (group_language_taken_false _ _ _ _ Hfree k1 p1).
  - rewrite lookup_insert_ne in Hk1, Hk2 by done. by eapply Hinv.
Qed.

Lemma reachable_constraint (tbl : Table Page) :
  reachable tbl → one_page_per_group_language (rows tbl).
Proof.
  induction 1 as [|tbl today instance _ IH|tbl k _ IH|tbl g _ IH].
  - intros k1 k2 p1 p2 g Hk1. cbn in Hk1. by rewrite lookup_empty in Hk1.
  - by apply Page_save_keeps_constraint.
  - cbn. intros k1 k2 p1 p2 g' Hk1 Hk2.
    apply lookup_delete_Some in Hk1 as [_ Hk1].
    apply lookup_delete_Some in Hk2 as [_ Hk2]. by eapply IH.
  - cbn. intros k1 k2 p1 p2 g' Hk1 Hk2.
    apply map_lookup_filter_Some in Hk1 as [Hk1 _].
    apply map_lookup_filter_Some in Hk2 as [Hk2 _]. by eapply IH.
Qed.

(** A second page for a group and a language that a stored page has is
    refused, and the table stays as it was. *)
Lemma Page_save_second_refused (today : datetime) (instance existing : Page)
    (k : nat) (g : string) (tbl : Table Page) :
  rows tbl !! k = Some existing →
  page_pk instance = None →
  group instance = Some g →
  group existing = Some g →
  page_language existing = page_language instance →
  ∃ constraint,
    Page_save today instance tbl = (tbl, Raise (IntegrityError constraint)).
Proof.
  intros Hrow Hpk Hg Hg' Hlang. unfold Page_save. cbv zeta.
  rewrite Hpk. cbn [default]. rewrite (bool_decide_eq_true_2 (None = None)) by done.
  destruct (rows tbl !! next_pk tbl) eqn:Hnext.
  - rewrite bool_decide_eq_false_2 by done. eauto.
  - rewrite bool_decide_eq_true_2 by done. cbn [negb andb].
    destruct (pid_taken _ _ _); [eauto|].
    rewrite Hg.
    rewrite (group_language_taken_true _ _ k existing g); [eauto|done| |done|done].
    intros ->. congruence.
Qed.

(** C8 (as amended). In every reachable store there is at most one page
    per group and language among the pages that have a group: creating a
    second page with the group and the language of a stored page fails with
    a uniqueness violation and leaves the store unchanged.  Pages without
    a group are outside the constraint. *)
Theorem one_page_per_group_and_language (tbl : Table Page) :
  reachable tbl →
  one_page_per_group_language (rows tbl)
  ∧ ∀ today instance existing k g,
      rows tbl !! k = Some existing →
      page_pk instance = None →
      group instance = Some g →
      group existing = Some g →
      page_language existing = page_language instance →
      ∃ constraint,
        Page_save today instance tbl = (tbl, Raise (IntegrityError constraint)).
Proof.
  intros Hreach. split; [by apply reachable_constraint|].
  intros today instance existing k g. apply Page_save_second_refused.
Qed.


(* ===================================================================== *)
(** * Theorems: localized date display *)
(* ===================================================================== *)

Lemma persian_digit_bytes (c : ascii) :
  is_ascii_digit c = true →
  ∀ b, b ∈ list_ascii_of_string (persian_digit c) → is_ascii_digit b = false.
Proof.
  intros Hc%bool_decide_eq_true b Hb. cbn in Hb.
  apply elem_of_cons in Hb as [->|Hb]; [done|].
  apply elem_of_cons in Hb as [->|Hb]; [|by apply elem_of_nil in Hb].
  apply bool_decide_eq_false. rewrite nat_ascii_embedding by lia. lia.
Qed.

(** No ASCII digit is left in the output of the remap. *)
Lemma to_persian_no_ascii_digit (s : string) :
  ∀ b, b ∈ list_ascii_of_string (to_persian s) → is_ascii_digit b = false.
Proof.
  induction s as [|c s IH]; intros b Hb.
  - by apply elem_of_nil in Hb.
  - cbn [to_persian] in Hb. destruct (is_ascii_digit c) eqn:Hc.
    + change (b ∈ ascii_of_nat 219
                  :: ascii_of_nat (176 + (nat_of_ascii c - 48))
                  :: list_ascii_of_string (to_persian s)) in Hb.
      apply elem_of_cons in Hb as [->|Hb];
        [apply (persian_digit_bytes c Hc); cbn; set_solver|].
      apply elem_of_cons in Hb as [->|Hb];
        [apply (persian_digit_bytes c Hc); cbn; set_solver|].
      by apply IH.
    + change (b ∈ c :: list_ascii_of_string (to_persian s)) in Hb.
      apply elem_of_cons in Hb as [->|Hb]; [done|by apply IH].
Qed.

(** Characters other than ASCII digits are left as they are. *)
Lemma to_persian_keeps_others (s : string) :
  (∀ b, b ∈ list_ascii_of_string s → is_ascii_digit b = false) →
  to_persian s = s.
Proof.
  induction s as [|c s IH]; intros Hs; [done|].
  cbn [to_persian]. rewrite (Hs c) by (cbn; set_solver).
  rewrite IH; [done|]. intros b Hb. apply Hs. cbn. set_solver.
Qed.

(* ===================================================================== *)
(** * Theorems: admin change lists *)
(* ===================================================================== *)

(** C10. The admin change lists of pages, reports and tags expose only
    records in the active language of the request: a stored record whose
    language differs is absent from the queryset of its kind. *)
Theorem change_lists_hide_other_languages
    (get_active_language : string)
    (Page_objects : gmap nat Page → gmap nat Page) :
  (∀ pages, Page_objects pages ⊆ pages) →
  (∀ pages k p,
     PageAdmin_get_queryset get_active_language Page_objects pages !! k = Some p →
     pages !! k = Some p ∧ page_language p = get_active_language)
  ∧ (∀ pages k p,
     pages !! k = Some p → page_language p ≠ get_active_language →
     PageAdmin_get_queryset get_active_language Page_objects pages !! k = None)
  ∧ (∀ reports k r,
     ReportAdmin_get_queryset get_active_language reports !! k = Some r
     ↔ reports !! k = Some r ∧ report_language r = get_active_language)
  ∧ (∀ reports k r,
     reports !! k = Some r → report_language r ≠ get_active_language →
     ReportAdmin_get_queryset get_active_language reports !! k = None)
  ∧ (∀ tags k t,
     TagAdmin_get_queryset get_active_language tags !! k = Some t
     ↔ tags !! k = Some t ∧ tag_language t = get_active_language)
  ∧ (∀ tags k t,
     tags !! k = Some t → tag_language t ≠ get_active_language →
     TagAdmin_get_queryset get_active_language tags !! k = None).
Proof.
  intros Hsub.
  assert (Hpage : ∀ pages k p,
    PageAdmin_get_queryset get_active_language Page_objects pages !! k = Some p →
    pages !! k = Some p ∧ page_language p = get_active_language).
  { intros pages k p [Hrow Hlang]%map_lookup_filter_Some. split; [|done].
    by apply (lookup_weaken _ _ _ _ Hrow (Hsub pages)). }
  split_and!.
  - exact Hpage.
  - intros pages k p Hrow Hlang.
    destruct (PageAdmin_get_queryset _ _ pages !! k) as [p'|] eqn:Hq; [|done].
    apply Hpage in Hq as [Hrow' Hl]. congruence.
  - intros reports k r. apply map_lookup_filter_Some.
  - intros reports k r Hrow Hlang.
    apply map_lookup_filter_None. right. intros r' Hrow'. cbn. congruence.
  - intros tags k t. apply map_lookup_filter_Some.
  - intros tags k t Hrow Hlang.
    apply map_lookup_filter_None. right. intros t' Hrow'. cbn. congruence.
Qed.


(* ===================================================================== *)
(** * The statements at concrete stores *)
(* ===================================================================== *)

(** The scenario of the report lifecycle, run: a pending report is
    accepted with an empty description, then an edit asks for denied. *)
Example report_lifecycle_scenario :
  let view := change_view "r" example_swap_prefix true example_run id 2 1 in
  let st0 := state_with {[ 1 := pending_report ]} 2 in
  let st1 := (view accept_without_description st0).1 in
  let st2 := (view deny_with_description st1).1 in
  (status <$> rows (reports st1) !! 1) = Some STATUS_IS_ACCEPTED
  ∧ (description <$> rows (reports st1) !! 1) = Some "-"
  ∧ (status <$> rows (reports st2) !! 1) = Some STATUS_IS_ACCEPTED
  ∧ (description <$> rows (reports st2) !! 1) = Some "-"
  ∧ trace st2 =
      [Persisted false 1;
       EmailSent "emails/report_result.html" ["reader@example.com"]
                 accepted_report;
       Persisted false 1].
Proof. vm_compute. by split_and!. Qed.

Lemma generated_id_prefixed_and_fresh_witness :
  generate_gid "g" example_draws 5 example_groups 0 = Some ("g_cccc", 3)
  ∧ generate_pid "p" example_draws 5 example_pages 0 = Some ("p_cccc", 3)
  ∧ (0 < 3
     ∧ "g_cccc" = "g" +:+ "_" +:+ example_draws (pred 3)
     ∧ is_gid_exist example_groups "g_cccc" = false
     ∧ ∀ k r, example_groups !! k = Some r → gid r ≠ "g_cccc")
  ∧ (0 < 3
     ∧ "p_cccc" = "p" +:+ "_" +:+ example_draws (pred 3)
     ∧ is_pid_exist example_pages "p_cccc" = false
     ∧ ∀ k r, example_pages !! k = Some r → pid r ≠ "p_cccc").
Proof.
  destruct (generated_id_prefixed_and_fresh "g" "p" example_draws 5
              example_groups example_pages 0) as [Hgid Hpid].
  split; [vm_compute; reflexivity|].
  split; [vm_compute; reflexivity|].
  split.
  - apply Hgid. vm_compute. reflexivity.
  - apply Hpid. vm_compute. reflexivity.
Defined.

Lemma generate_id_retries_unbounded_witness :
  generate_gid "g" (λ _, "aaaa") 1000 example_groups 0 = None
  ∧ generate_pid "p" (λ _, "aaaa") 1000 example_pages 0 = None
  ∧ (∃ fuel r, generate_gid "g" example_draws fuel example_groups 0 = Some r)
  ∧ (∃ fuel r, generate_pid "p" example_draws fuel example_pages 0 = Some r).
Proof.
  destruct (generate_id_retries_unbounded "g" "p") as (Hgid & Hpid & _ & _).
  split; [|split; [|split]].
  - apply (proj2 (Hgid (λ _, "aaaa") example_groups 0)).
    intros i _. vm_compute. reflexivity.
  - apply (proj2 (Hpid (λ _, "aaaa") example_pages 0)).
    intros i _. vm_compute. reflexivity.
  - apply (proj1 (Hgid example_draws example_groups 0)).
    exists 2. split; [lia|]. vm_compute. reflexivity.
  - apply (proj1 (Hpid example_draws example_pages 0)).
    exists 2. split; [lia|]. vm_compute. reflexivity.
Defined.

Lemma switch_lang_code_raises_iff_invalid_witness :
  raises (switch_lang_code LANGUAGES_fa_en "en/foo" "fa")
  ∧ raises (switch_lang_code LANGUAGES_fa_en "/en/foo" "de")
  ∧ ∃ segment rest,
      "/en/foo" = "/" +:+ segment +:+ rest
      ∧ ("/"%char ∉ list_ascii_of_string segment)
      ∧ (rest = "" ∨ ∃ r, rest = String "/" r)
      ∧ switch_lang_code LANGUAGES_fa_en "/en/foo" "fa" =
          Ok (if bool_decide (segment ∈ lang_codes LANGUAGES_fa_en)
              then "/" +:+ "fa" +:+ rest
              else "/" +:+ "fa" +:+ "/en/foo").
Proof.
  split; [|split].
  - apply (proj1 (switch_lang_code_raises_iff_invalid LANGUAGES_fa_en "en/foo" "fa")).
    right; left. intros s. discriminate.
  - apply (proj1 (switch_lang_code_raises_iff_invalid LANGUAGES_fa_en "/en/foo" "de")).
    right; right. vm_compute. intros Hin.
    repeat (apply elem_of_cons in Hin as [Hin|Hin]; [discriminate Hin|]).
    by apply elem_of_nil in Hin.
  - apply (proj2 (switch_lang_code_raises_iff_invalid LANGUAGES_fa_en "/en/foo" "fa")).
    + discriminate.
    + by exists "en/foo".
    + vm_compute. constructor.
Defined.

Lemma rid_derived_once_after_first_save_witness :
  (∃ st' instance',
     Report_save "r" example_swap_prefix 2 new_report (state_with ∅ 1)
       = (st', Ok instance')
     ∧ report_pk instance' = Some 1
     ∧ rid instance' = Some (example_swap_prefix ("p_aaaa" +:+ "_" +:+ pretty 1) "r")
     ∧ rows (reports st') !! 1 = Some instance'
     ∧ trace st' = [] ++ [Persisted true 1;
                          RidAssigned (Some 1)
                            (example_swap_prefix ("p_aaaa" +:+ "_" +:+ pretty 1) "r");
                          Persisted false 1])
  ∧ (∃ st' outcome events,
       Report_save "r" example_swap_prefix 1 accepted_report
                   (state_with {[ 1 := accepted_report ]} 2) = (st', outcome)
       ∧ trace st' = [] ++ events
       ∧ Forall keeps_rid events
       ∧ (∀ instance', outcome = Ok instance' →
            rid instance' = rid accepted_report)
       ∧ (rid accepted_report = rid accepted_report →
          ∀ r, rows (reports st') !! 1 = Some r → rid r = rid accepted_report)).
Proof.
  destruct (rid_derived_once_after_first_save "r" example_swap_prefix)
    as [Hfirst Hlater].
  split.
  - apply (Hfirst 0 new_report (state_with ∅ 1)); vm_compute; reflexivity.
  - apply (Hlater 0 accepted_report accepted_report 1
             (state_with {[ 1 := accepted_report ]} 2));
      vm_compute; reflexivity.
Defined.


Lemma first_status_change_notifies_once_witness :
  let st := set_admin {| readonly_fields := ["view_page"; "body"; "rid";
                                             "send_email"; "jalali_updated_on";
                                             "jalali_created_on"] |}
              (state_with {[ 1 := pending_report ]} 2) in
  let obj := set_status STATUS_IS_ACCEPTED pending_report in
  (∃ st' obj',
     ReportAdmin_save_model "r" example_swap_prefix true example_run id 1
       obj accept_without_description st = (st', Ok obj')
     ∧ ("" = "" → id "-" ≠ "" ∧ description obj' = example_run (full_editor true) (id "-"))
     ∧ ("" ≠ "" → description obj' = example_run (full_editor true) (description obj))
     ∧ status obj' = status obj
     ∧ rows (reports st') !! 1 = Some obj'
     ∧ trace st' =
         trace st ++ [Persisted false 1;
                      EmailSent "emails/report_result.html" [reporter obj] obj'])
  ∧ (∃ events,
       trace (ReportAdmin_save_model "r" example_swap_prefix true example_run
                id 1 pending_report accept_without_description st).1
         = trace st ++ events
       ∧ Forall silent events).
Proof.
  intros st obj.
  destruct (first_status_change_notifies_once "r" example_swap_prefix true
              example_run id) as [Hfirst Hpending].
  split.
  - apply (Hfirst 0 obj accept_without_description "" pending_report 1 st).
    + intros msgid Hne. exact Hne.
    + vm_compute. intros Hin.
      repeat (apply elem_of_cons in Hin as [Hin|Hin]; [discriminate Hin|]).
      by apply elem_of_nil in Hin.
    + discriminate.
    + vm_compute. reflexivity.
    + reflexivity.
    + vm_compute. reflexivity.
    + vm_compute. reflexivity.
  - apply (Hpending 1 pending_report accept_without_description st _
             (ReportAdmin_save_model "r" example_swap_prefix true example_run
                id 1 pending_report accept_without_description st).2).
    + reflexivity.
    + by destruct (ReportAdmin_save_model _ _ _ _ _ _ _ _ _).
Defined.


(** Two pages without a group in one language: both are stored. *)
Lemma groupless_pages_share_a_language :
  let first := set_page_pk (Some 1) groupless_first in
  let second := set_page_pk (Some 2) groupless_second in
  reachable one_groupless_page
  ∧ rows one_groupless_page !! 1 = Some first
  ∧ page_pk groupless_second = None
  ∧ group groupless_second = group first
  ∧ page_language groupless_second = page_language first
  ∧ Page_save spring_day groupless_second one_groupless_page
      = (two_groupless_pages, Ok second)
  ∧ reachable two_groupless_pages
  ∧ rows two_groupless_pages !! 1 = Some first
  ∧ rows two_groupless_pages !! 2 = Some second
  ∧ group first = group second
  ∧ page_language first = page_language second.
Proof.
  intros first second.
  assert (Hreach : reachable one_groupless_page)
    by apply (reachable_save _ spring_day groupless_first reachable_empty).
  split_and!; try (vm_compute; reflexivity).
  - exact Hreach.
  - apply (reachable_save _ spring_day groupless_second Hreach).
Qed.

Lemma one_page_per_group_and_language_witness :
  reachable one_grouped_page
  ∧ one_page_per_group_language (rows one_grouped_page)
  ∧ ∃ constraint,
      Page_save spring_day (new_page (Some "g_aaaa") "fa" "p_bbbb" "Second")
                one_grouped_page
        = (one_grouped_page, Raise (IntegrityError constraint)).
Proof.
  assert (Hreach : reachable one_grouped_page).
  { apply (reachable_save _ spring_day
             (new_page (Some "g_aaaa") "fa" "p_aaaa" "First") reachable_empty). }
  destruct (one_page_per_group_and_language one_grouped_page Hreach)
    as [Hinv Hrefused].
  split; [exact Hreach|]. split; [exact Hinv|].
  eapply (Hrefused spring_day _ _ 1 "g_aaaa"); vm_compute; reflexivity.
Defined.

Lemma change_lists_hide_other_languages_witness :
  PageAdmin_get_queryset "fa" id
    {[ 1 := example_page;
       2 := set_page_pk (Some 2) (new_page None "en" "p_bbbb" "Title 2") ]} !! 2
    = None.
Proof.
  destruct (change_lists_hide_other_languages "fa" id) as (_ & Hhidden & _).
  - intros pages. reflexivity.
  - eapply Hhidden; [vm_compute; reflexivity|discriminate].
Defined.



(* ===================================================================== *)
(** * Further properties: identifier generator *)
(* ===================================================================== *)

Section IdentifierGeneratorMore.

Variables GID_PREFIX PID_PREFIX : string.
Variable id_generator : nat → string.

Local Abbreviation gid_of i := (GID_PREFIX +:+ "_" +:+ id_generator i).
Local Abbreviation pid_of i := (PID_PREFIX +:+ "_" +:+ id_generator i).
Local Abbreviation gen_gid := (generate_gid GID_PREFIX id_generator).
Local Abbreviation gen_pid := (generate_pid PID_PREFIX id_generator).

(** The loop returns the first free candidate, if the fuel reaches it. *)
Lemma generate_gid_first_free groups : ∀ fuel drawn j,
  drawn ≤ j → j - drawn < fuel →
  is_gid_exist groups (gid_of j) = false →
  (∀ i, drawn ≤ i < j → is_gid_exist groups (gid_of i) = true) →
  gen_gid fuel groups drawn = Some (gid_of j, S j).
Proof.
  induction fuel as [|fuel IH]; intros drawn j Hle Hfuel Hfree Hbusy; [lia|].
  rewrite generate_gid_step.
  destruct (decide (drawn = j)) as [->|Hne].
  - by rewrite Hfree.
  - rewrite (Hbusy drawn) by lia. apply IH; [lia|lia|done|].
    intros i Hi. apply Hbusy. lia.
Qed.

Lemma generate_pid_first_free pages : ∀ fuel drawn j,
  drawn ≤ j → j - drawn < fuel →
  is_pid_exist pages (pid_of j) = false →
  (∀ i, drawn ≤ i < j → is_pid_exist pages (pid_of i) = true) →
  gen_pid fuel pages drawn = Some (pid_of j, S j).
Proof.
  induction fuel as [|fuel IH]; intros drawn j Hle Hfuel Hfree Hbusy; [lia|].
  rewrite generate_pid_step.
  destruct (decide (drawn = j)) as [->|Hne].
  - by rewrite Hfree.
  - rewrite (Hbusy drawn) by lia. apply IH; [lia|lia|done|].
    intros i Hi. apply Hbusy. lia.
Qed.

(** A returned candidate was reached within the fuel. *)
Lemma generate_gid_within_fuel groups : ∀ fuel drawn g drawn',
  gen_gid fuel groups drawn = Some (g, drawn') → drawn' - drawn ≤ fuel.
Proof.
  induction fuel as [|fuel IH]; intros drawn g drawn' Hrun; [done|].
  rewrite generate_gid_step in Hrun.
  destruct (is_gid_exist groups _).
  - apply IH in Hrun. lia.
  - injection Hrun as <- <-. lia.
Qed.

Lemma generate_pid_within_fuel pages : ∀ fuel drawn p drawn',
  gen_pid fuel pages drawn = Some (p, drawn') → drawn' - drawn ≤ fuel.
Proof.
  induction fuel as [|fuel IH]; intros drawn p drawn' Hrun; [done|].
  rewrite generate_pid_step in Hrun.
  destruct (is_pid_exist pages _).
  - apply IH in Hrun. lia.
  - injection Hrun as <- <-. lia.
Qed.

End IdentifierGeneratorMore.

(** X1. The generators return the first draw whose candidate is not
    held by a persisted record, and consume the draws up to and including
    that one: a result is returned exactly when such a draw lies within the
    turns the loop is given. *)
Theorem generate_id_returns_first_free
    (GID_PREFIX PID_PREFIX : string) (id_generator : nat → string)
    (fuel : nat) (groups : gmap nat Group) (pages : gmap nat Page)
    (drawn : nat) (new_id : string) (drawn' : nat) :
  (generate_gid GID_PREFIX id_generator fuel groups drawn = Some (new_id, drawn')
   ↔ ∃ j, drawn ≤ j ∧ j - drawn < fuel ∧ drawn' = S j
          ∧ new_id = GID_PREFIX +:+ "_" +:+ id_generator j
          ∧ is_gid_exist groups new_id = false
          ∧ ∀ i, drawn ≤ i < j →
              is_gid_exist groups (GID_PREFIX +:+ "_" +:+ id_generator i) = true)
  ∧ (generate_pid PID_PREFIX id_generator fuel pages drawn = Some (new_id, drawn')
   ↔ ∃ j, drawn ≤ j ∧ j - drawn < fuel ∧ drawn' = S j
          ∧ new_id = PID_PREFIX +:+ "_" +:+ id_generator j
          ∧ is_pid_exist pages new_id = false
          ∧ ∀ i, drawn ≤ i < j →
              is_pid_exist pages (PID_PREFIX +:+ "_" +:+ id_generator i) = true).
Proof.
  split; split.
  - intros Hrun. pose proof (generate_gid_within_fuel _ _ _ _ _ _ _ Hrun) as Hfuel.
    apply generate_gid_sound in Hrun as (j & Hle & -> & -> & Hfree & Hbusy).
    exists j. split_and!; [done|lia|done|done|done|done].
  - intros (j & Hle & Hfuel & -> & -> & Hfree & Hbusy).
    by apply generate_gid_first_free.
  - intros Hrun. pose proof (generate_pid_within_fuel _ _ _ _ _ _ _ Hrun) as Hfuel.
    apply generate_pid_sound in Hrun as (j & Hle & -> & -> & Hfree & Hbusy).
    exists j. split_and!; [done|lia|done|done|done|done].
  - intros (j & Hle & Hfuel & -> & -> & Hfree & Hbusy).
    by apply generate_pid_first_free.
Qed.

(** X2. The generators reserve nothing: uniqueness is checked against the
    persisted records only.  While the returned identifier is not
    persisted, a second call returns the same identifier as soon as the
    random source repeats the suffix. *)
Theorem generate_id_repeats_until_persisted
    (GID_PREFIX PID_PREFIX : string) (id_generator : nat → string)
    (fuel fuel' : nat) (groups : gmap nat Group) (pages : gmap nat Page)
    (drawn : nat) :
  (∀ g drawn',
     generate_gid GID_PREFIX id_generator fuel groups drawn = Some (g, drawn') →
     id_generator drawn' = id_generator (pred drawn') →
     generate_gid GID_PREFIX id_generator (S fuel') groups drawn'
       = Some (g, S drawn'))
  ∧ (∀ p drawn',
     generate_pid PID_PREFIX id_generator fuel pages drawn = Some (p, drawn') →
     id_generator drawn' = id_generator (pred drawn') →
     generate_pid PID_PREFIX id_generator (S fuel') pages drawn'
       = Some (p, S drawn')).
Proof.
  split.
  - intros g drawn' Hrun Hrepeat.
    apply generate_gid_sound in Hrun as (j & Hle & -> & -> & Hfree & _).
    cbn [pred] in Hrepeat. rewrite generate_gid_step, Hrepeat.
    by rewrite Hfree.
  - intros p drawn' Hrun Hrepeat.
    apply generate_pid_sound in Hrun as (j & Hle & -> & -> & Hfree & _).
    cbn [pred] in Hrepeat. rewrite generate_pid_step, Hrepeat.
    by rewrite Hfree.
Qed.


(* ===================================================================== *)
(** * Further properties: pages under their constraints *)
(* ===================================================================== *)

Lemma pid_taken_true (tbl : gmap nat Page) (k k' : nat) (p : Page) :
  tbl !! k' = Some p → k' ≠ k → pid_taken tbl k (pid p) = true.
Proof. intros Hrow Hne. apply bool_decide_eq_true. by exists k', p. Qed.

Lemma pid_taken_false (tbl : gmap nat Page) (k : nat) (v : string) :
  pid_taken tbl k v = false →
  ∀ k' p, tbl !! k' = Some p → k' ≠ k → pid p ≠ v.
Proof.
  intros Hfree k' p Hrow Hne Hv. subst v.
  by rewrite (pid_taken_true tbl k k' p) in Hfree.
Qed.

(** An identifier no row holds is not taken, whatever the key. *)
Lemma pid_taken_of_exist (tbl : gmap nat Page) (k : nat) (v : string) :
  is_pid_exist tbl v = false → pid_taken tbl k v = false.
Proof.
  intros Hfree. apply bool_decide_eq_false. intros (k' & p & Hrow & _ & Hv).
  by apply (proj1 (is_pid_exist_false tbl v) Hfree k' p).
Qed.

Lemma Page_save_keeps_keys (today : datetime) (instance : Page) (tbl : Table Page) :
  page_keys_sound tbl →
  page_keys_sound (Page_save today instance tbl).1.
Proof.
  intros Hinv. unfold Page_save. cbv zeta.
  destruct (_ && _); [done|].
  destruct (pid_taken _ _ _); [done|].
  destruct (group_language_taken _ _ _ _); [done|].
  cbn [fst]. set (k := default _ _). intros k1 p1. cbn [rows next_pk].
  destruct (decide (k1 = k)) as [->|Hne].
  - rewrite lookup_insert_eq. intros [= <-]. split; [done|lia].
  - rewrite lookup_insert_ne by done. intros Hrow.
    destruct (Hinv _ _ Hrow). split; [done|lia].
Qed.

Lemma Page_save_keeps_pids (today : datetime) (instance : Page) (tbl : Table Page) :
  pids_unique (rows tbl) →
  pids_unique (rows (Page_save today instance tbl).1).
Proof.
  intros Hinv. unfold Page_save. cbv zeta.
  destruct (_ && _); [done|].
  destruct (pid_taken _ _ _) eqn:Hfree; [done|].
  destruct (group_language_taken _ _ _ _); [done|].
  cbn [fst rows]. set (k := default _ _) in *.
  intros k1 k2 p1 p2 Hk1 Hk2 Hpid.
  destruct (decide (k1 = k)) as [->|Hne1], (decide (k2 = k)) as [->|Hne2];
    [done| | |].
  - rewrite lookup_insert_eq in Hk1. rewrite lookup_insert_ne in Hk2 by done.
    injection Hk1 as <-. cbn in Hpid.
    by destruct (pid_taken_false _ _ _ Hfree k2 p2).
  - rewrite lookup_insert_eq in Hk2. rewrite lookup_insert_ne in Hk1 by done.
    injection Hk2 as <-. cbn in Hpid.
    by destruct (pid_taken_false _ _ _ Hfree k1 p1).
  - rewrite lookup_insert_ne in Hk1, Hk2 by done. by eapply Hinv.
Qed.

Lemma reachable_keys (tbl : Table Page) :
  reachable tbl → page_keys_sound tbl.
Proof.
  induction 1 as [|tbl today instance _ IH|tbl k _ IH|tbl g _ IH].
  - intros k p Hk. cbn in Hk. by rewrite lookup_empty in Hk.
  - by apply Page_save_keeps_keys.
  - intros k1 p1 Hk1. cbn in Hk1 |- *.
    apply lookup_delete_Some in Hk1 as [_ Hk1]. by apply IH.
  - intros k1 p1 Hk1. cbn in Hk1 |- *.
    apply map_lookup_filter_Some in Hk1 as [Hk1 _]. by apply IH.
Qed.

Lemma reachable_pids (tbl : Table Page) :
  reachable tbl → pids_unique (rows tbl).
Proof.
  induction 1 as [|tbl today instance _ IH|tbl k _ IH|tbl g _ IH].
  - intros k1 k2 p1 p2 Hk1. cbn in Hk1. by rewrite lookup_empty in Hk1.
  - by apply Page_save_keeps_pids.
  - cbn. intros k1 k2 p1 p2 Hk1 Hk2.
    apply lookup_delete_Some in Hk1 as [_ Hk1].
    apply lookup_delete_Some in Hk2 as [_ Hk2]. by eapply IH.
  - cbn. intros k1 k2 p1 p2 Hk1 Hk2.
    apply map_lookup_filter_Some in Hk1 as [Hk1 _].
    apply map_lookup_filter_Some in Hk2 as [Hk2 _]. by eapply IH.
Qed.

(** X3. A new page without a group that carries the identifier
    [generate_pid] returned for the table is stored when it is saved: it
    passes the uniqueness check of [pid], and with a null [group] neither
    the foreign key nor [unique_together] applies.  Once it is stored the
    identifier exists, and no later call of the generator against the
    table returns it again. *)
Theorem generated_pid_is_accepted_and_retired
    (PID_PREFIX : string) (id_generator : nat → string)
    (fuel drawn drawn' : nat) (new_pid : string)
    (today : datetime) (instance : Page) (tbl : Table Page) :
  generate_pid PID_PREFIX id_generator fuel (rows tbl) drawn
    = Some (new_pid, drawn') →
  page_pk instance = None →
  pid instance = new_pid →
  group instance = None →
  rows tbl !! next_pk tbl = None →
  ∃ tbl' saved,
    Page_save today instance tbl = (tbl', Ok saved)
    ∧ rows tbl' !! next_pk tbl = Some saved
    ∧ pid saved = new_pid
    ∧ group saved = None
    ∧ is_pid_exist (rows tbl') new_pid = true
    ∧ ∀ fuel2 drawn2 p2 drawn2',
        generate_pid PID_PREFIX id_generator fuel2 (rows tbl') drawn2
          = Some (p2, drawn2') →
        p2 ≠ new_pid.
Proof.
  intros Hgen Hpk Hpid Hgroup Hnext.
  apply generate_pid_sound in Hgen as (j & _ & _ & Hnew & Hfree & _).
  unfold Page_save. cbv zeta. rewrite Hpk. cbn [default].
  rewrite (bool_decide_eq_true_2 (rows tbl !! next_pk tbl = None)) by done.
  rewrite andb_false_r, Hpid, (pid_taken_of_exist _ _ _ Hfree), Hgroup.
  cbn [group_language_taken].
  eexists _, _. split; [done|]. cbn [rows].
  assert (Hexists : is_pid_exist
            (<[next_pk tbl:=set_page_dates today today
                              (set_page_pk (Some (next_pk tbl)) instance)]>
               (rows tbl)) new_pid = true).
  { apply bool_decide_eq_true. eexists (next_pk tbl), _.
    split; [apply lookup_insert_eq|]. by cbn. }
  split_and!; [apply lookup_insert_eq|by cbn|by cbn|done|].
  intros fuel2 drawn2 p2 drawn2' Hgen2 ->.
  apply generate_pid_sound in Hgen2 as (j2 & _ & _ & _ & Hfree2 & _).
  congruence.
Qed.

(** X4. In every reachable store no two pages share a [pid], and a save
    of a page whose [pid] is held by another row is refused with an
    integrity error and leaves the table as it was. *)
Theorem page_pids_stay_unique (tbl : Table Page) :
  reachable tbl →
  pids_unique (rows tbl)
  ∧ ∀ today instance existing k,
      rows tbl !! k = Some existing →
      pid instance = pid existing →
      page_pk instance ≠ Some k →
      ∃ constraint,
        Page_save today instance tbl = (tbl, Raise (IntegrityError constraint)).
Proof.
  intros Hreach. split; [by apply reachable_pids|].
  intros today instance existing k Hrow Hpid Hother.
  unfold Page_save. cbv zeta.
  destruct (page_pk instance) as [k0|] eqn:Hpk; cbn [default].
  - rewrite (bool_decide_eq_false_2 (Some k0 = None)) by done.
    cbn [andb]. rewrite Hpid, (pid_taken_true _ k0 k existing); [eauto|done|].
    intros ->. by apply Hother.
  - rewrite (bool_decide_eq_true_2 (None = None)) by done.
    destruct (rows tbl !! next_pk tbl) eqn:Hnext.
    + rewrite bool_decide_eq_false_2 by done. eauto.
    + rewrite bool_decide_eq_true_2 by done. cbn [negb andb].
      rewrite Hpid, (pid_taken_true _ _ k existing); [eauto|done|].
      intros ->. congruence.
Qed.

(** X5. Moving a stored page to the group and the language of another
    stored page is refused as well: the constraint guards updates, not
    only the creation of a page. *)
Theorem page_update_into_taken_pair_refused
    (today : datetime) (instance existing : Page) (k own : nat) (g : string)
    (tbl : Table Page) :
  rows tbl !! k = Some existing →
  page_pk instance = Some own →
  own ≠ k →
  group instance = Some g →
  group existing = Some g →
  page_language existing = page_language instance →
  ∃ constraint,
    Page_save today instance tbl = (tbl, Raise (IntegrityError constraint)).
Proof.
  intros Hrow Hpk Hne Hg Hg' Hlang. unfold Page_save. cbv zeta.
  rewrite Hpk. cbn [default].
  rewrite (bool_decide_eq_false_2 (Some own = None)) by done. cbn [andb].
  destruct (pid_taken _ _ _); [eauto|].
  rewrite Hg, (group_language_taken_true _ _ k existing g); eauto.
Qed.

(** X6. In a reachable store an edit of a stored page through the admin
    that keeps its [pid], group and language is always accepted: the row
    is replaced under the same key by the object with the five normalised
    texts, [updated_on] is the day of the save, and the reference, the
    website, the author, the activity flag and [created_on] are stored as
    they were handed in, without normalisation. *)
Theorem stored_page_edit_is_accepted
    (default_escape_return : bool) (run : PersianEditors → string → string)
    (today : datetime) (obj stored : Page) (k : nat) (tbl : Table Page) :
  reachable tbl →
  rows tbl !! k = Some stored →
  page_pk obj = Some k →
  pid obj = pid stored →
  group obj = group stored →
  page_language obj = page_language stored →
  ∃ saved,
    PageAdmin_save_model default_escape_return run today obj tbl
      = ({| rows := <[k:=saved]> (rows tbl); next_pk := next_pk tbl |}, Ok saved)
    ∧ page_pk saved = Some k
    ∧ title saved = run (full_editor default_escape_return) (title obj)
    ∧ subtitle saved = run (full_editor default_escape_return) (subtitle obj)
    ∧ content saved = run (full_editor default_escape_return) (content obj)
    ∧ event saved = run (full_editor default_escape_return) (event obj)
    ∧ image_caption saved
        = run (full_editor default_escape_return) (image_caption obj)
    ∧ reference saved = reference obj
    ∧ website saved = website obj
    ∧ author saved = author obj
    ∧ page_is_active saved = page_is_active obj
    ∧ page_created_on saved = page_created_on obj
    ∧ page_updated_on saved = today.
Proof.
  intros Hreach Hrow Hpk Hpid Hgroup Hlang.
  pose proof (reachable_keys _ Hreach) as Hkeys.
  pose proof (reachable_pids _ Hreach) as Hpids.
  pose proof (reachable_constraint _ Hreach) as Hpairs.
  destruct (Hkeys _ _ Hrow) as [_ Hbelow].
  unfold PageAdmin_save_model, Page_save. cbv zeta.
  cbn [page_pk set_page_texts pid group page_language]. rewrite Hpk.
  cbn [default].
  rewrite (bool_decide_eq_false_2 (Some k = None)) by done. cbn [andb].
  rewrite (bool_decide_eq_false_2 (rows tbl !! k = None)) by (by rewrite Hrow).
  unfold id.
  assert (pid_taken (rows tbl) k (pid obj) = false) as ->.
  { apply bool_decide_eq_false. intros (k' & p & Hrow' & Hne & Hp).
    apply Hne. apply (Hpids k' k p stored); congruence. }
  assert (group_language_taken (rows tbl) k (group obj) (page_language obj)
          = false) as ->.
  { destruct (group obj) as [g|] eqn:Hg; [|done].
    apply bool_decide_eq_false. intros (k' & p & Hrow' & Hne & Hg' & Hl).
    apply Hne. apply (Hpairs k' k p stored g); congruence. }
  eexists. split.
  - do 2 f_equal. f_equal. lia.
  - by split_and!.
Qed.


(* ===================================================================== *)
(** * Further properties: [Report.save] and its receiver *)
(* ===================================================================== *)

(** The write either raises an integrity error and leaves the state as
    it was, or stores the instance under its key. *)
Lemma Report_save_base_outcomes (instance : Report) (st : State) :
  (∃ constraint,
     Report_save_base instance st = (st, Raise (IntegrityError constraint)))
  ∨ (∃ (k : nat) (created : bool),
       let written := set_report_dates (today st)
                        (if created then today st else report_created_on instance)
                        (set_report_pk (Some k) instance) in
       Report_save_base instance st =
         ({| reports := {| rows := <[k:=written]> (rows (reports st));
                           next_pk := next_pk (reports st) `max` S k |};
             today := today st; admin := admin st;
             trace := trace st ++ [Persisted created k] |},
          Ok (written, created))
       ∧ rid_taken (rows (reports st)) k (rid instance) = false).
Proof.
  unfold Report_save_base. cbv zeta.
  destruct (_ && _); [left; eauto|].
  destruct (rid_taken _ _ _) eqn:Hrid; [left; eauto|].
  right. by eexists _, _.
Qed.

Section ReferenceIdMore.

Variable RID_PREFIX : string.
Variable swap_prefix : string → string → string.

Local Abbreviation save := (Report_save RID_PREFIX swap_prefix).

(** X7. The receiver saves the instance from inside the signal, and that
    save raises the signal again; the second signal carries
    [created=False] and stops there.  Two levels of [save] are all that is
    ever used: a larger recursion limit gives the same run, and the run
    never ends in a recursion error. *)
Theorem Report_save_recursion_is_bounded
    (depth : nat) (instance : Report) (st : State) :
  save (S (S depth)) instance st = save 2 instance st
  ∧ (save (S (S depth)) instance st).2 ≠ Raise RecursionError.
Proof.
  assert (Hnested : ∀ d inst st1 k stored,
    report_pk inst = Some k → rows (reports st1) !! k = Some stored →
    save (S d) inst st1 = save 1 inst st1
    ∧ (save (S d) inst st1).2 ≠ Raise RecursionError).
  { intros d inst st1 k stored Hpk Hrow.
    rewrite !(Report_save_update _ _ _ _ _ _ _ Hpk Hrow).
    split; [done|]. by destruct (rid_taken _ _ _). }
  cbn [Report_save]. unfold bind at 1 3 5.
  destruct (Report_save_base_outcomes instance st)
    as [[c Hraise]|(k & created & Hwrite & _)].
  - rewrite Hraise. by split.
  - cbv zeta in Hwrite. rewrite Hwrite. clear Hwrite.
    destruct created; cbn [generate_rid]; [|by split].
    unfold bind, emit. cbn [fst snd].
    set (written := set_report_dates _ _ _).
    set (st1 := Build_State _ _ _ _).
    assert (Hrow : rows (reports st1) !! k = Some written)
      by apply lookup_insert_eq.
    apply (Hnested depth _ st1 k written); [done|exact Hrow].
Qed.

End ReferenceIdMore.

(** The decimal text of a number holds digits only. *)
Lemma pretty_N_go_digits (x : N) : ∀ s,
  (∀ c, c ∈ list_ascii_of_string s → is_ascii_digit c = true) →
  ∀ c, c ∈ list_ascii_of_string (pretty_N_go x s) → is_ascii_digit c = true.
Proof.
  induction (N.lt_wf_0 x) as [x _ IH]; intros s Hs c Hc.
  destruct (decide (x = 0)%N) as [->|Hx].
  - rewrite pretty_N_go_0 in Hc. by apply Hs.
  - rewrite pretty_N_go_step in Hc by lia.
    apply (IH (x `div` 10)%N) in Hc; [done|apply N.div_lt; lia|].
    intros c' Hc'. cbn in Hc'. apply elem_of_cons in Hc' as [->|Hc'].
    + unfold pretty_N_char. by repeat case_match.
    + by apply Hs.
Qed.

Lemma pretty_nat_digits (n : nat) :
  ∀ c, c ∈ list_ascii_of_string (pretty n) → is_ascii_digit c = true.
Proof.
  intros c. unfold pretty, pretty_nat, pretty, pretty_N.
  case_decide.
  - cbn. intros Hc. apply elem_of_cons in Hc as [->|Hc]; [done|].
    by apply elem_of_nil in Hc.
  - apply pretty_N_go_digits. intros c' Hc'. by apply elem_of_nil in Hc'.
Qed.

(** Two texts of the form [head_tail] whose tails hold no underscore
    agree only when heads and tails agree. *)
Lemma underscore_split_inj (a b d1 d2 : string) :
  ("_"%char ∉ list_ascii_of_string d1) →
  ("_"%char ∉ list_ascii_of_string d2) →
  a +:+ "_" +:+ d1 = b +:+ "_" +:+ d2 →
  a = b ∧ d1 = d2.
Proof.
  assert (Hin : ∀ (x y : string),
    "_"%char ∈ list_ascii_of_string (x +:+ "_" +:+ y)).
  { intros x y. induction x as [|c x IH]; cbn; [constructor|].
    by constructor. }
  intros Hd1 Hd2. revert b.
  induction a as [|c a IH]; intros [|c' b] Heq.
  - change (String "_" d1 = String "_" d2) in Heq. by injection Heq as ->.
  - change (String "_" d1 = String c' (b +:+ "_" +:+ d2)) in Heq.
    injection Heq as <- ->. destruct Hd1. apply Hin.
  - change (String c (a +:+ "_" +:+ d1) = String "_" d2) in Heq.
    injection Heq as -> <-. destruct Hd2. apply Hin.
  - change (String c (a +:+ "_" +:+ d1) = String c' (b +:+ "_" +:+ d2)) in Heq.
    injection Heq as -> Heq. by destruct (IH _ Heq) as [-> ->].
Qed.

(** X8. The text [generate_rid] hands to [swap_prefix] is the page's
    public identifier, an underscore and the key in decimal.  For pages
    whose identifiers carry the page prefix, and a prefix swap that keeps
    apart the texts that start with that prefix, two reports that differ
    in their key or in the identifier of their page are assigned
    different reference identifiers. *)
Theorem derived_rids_tell_reports_apart
    (PID_PREFIX RID_PREFIX : string) (swap_prefix : string → string → string)
    (i1 i2 i1' i2' : Report) (s1 s2 : string) (k1 k2 : nat)
    (st1 st2 st1' st2' : State) :
  (∀ a b, swap_prefix (PID_PREFIX +:+ "_" +:+ a) RID_PREFIX
            = swap_prefix (PID_PREFIX +:+ "_" +:+ b) RID_PREFIX → a = b) →
  pid (page i1) = PID_PREFIX +:+ "_" +:+ s1 →
  pid (page i2) = PID_PREFIX +:+ "_" +:+ s2 →
  report_pk i1 = Some k1 →
  report_pk i2 = Some k2 →
  generate_rid RID_PREFIX swap_prefix ret i1 true st1 = (st1', Ok i1') →
  generate_rid RID_PREFIX swap_prefix ret i2 true st2 = (st2', Ok i2') →
  pid (page i1) ≠ pid (page i2) ∨ k1 ≠ k2 →
  rid i1' ≠ rid i2'.
Proof.
  intros Hswap Hpid1 Hpid2 Hpk1 Hpk2 Hrun1 Hrun2 Hdiffer Hrid.
  unfold generate_rid, bind, emit, ret in Hrun1, Hrun2.
  injection Hrun1 as _ <-. injection Hrun2 as _ <-.
  cbn [rid set_rid] in Hrid. injection Hrid as Hrid.
  rewrite Hpk1, Hpk2 in Hrid. cbn [str_pk] in Hrid.
  rewrite Hpid1, Hpid2 in Hrid, Hdiffer.
  rewrite !string_app_assoc in Hrid.
  apply Hswap in Hrid.
  assert (Hdigits : ∀ n : nat, "_"%char ∉ list_ascii_of_string (pretty n)).
  { intros n Hin. by apply pretty_nat_digits in Hin. }
  apply underscore_split_inj in Hrid as [Hs Hk]; [|done|done].
  apply (inj (pretty : nat → string)) in Hk.
  destruct Hdiffer as [Hne|Hne]; [by rewrite Hs in Hne|done].
Qed.

(* ===================================================================== *)
(** * Further properties: the report table stays well-formed *)
(* ===================================================================== *)

Lemma insert_keeps_rids (tbl : gmap nat Report) (k : nat) (r : Report) :
  rids_unique tbl →
  rid_taken tbl k (rid r) = false →
  rids_unique (<[k:=r]> tbl).
Proof.
  intros Hinv Hfree.
  assert (Hother : ∀ k' r' v, tbl !! k' = Some r' → k' ≠ k →
                              rid r = Some v → rid r' ≠ Some v).
  { intros k' r' v Hrow Hne Hv Hv'. rewrite Hv in Hfree. cbn in Hfree.
    apply bool_decide_eq_false in Hfree. apply Hfree. by exists k', r'. }
  intros k1 k2 r1 r2 v Hk1 Hk2 Hv1 Hv2.
  destruct (decide (k1 = k)) as [->|Hne1], (decide (k2 = k)) as [->|Hne2];
    [done| | |].
  - rewrite lookup_insert_eq in Hk1. rewrite lookup_insert_ne in Hk2 by done.
    injection Hk1 as <-. by destruct (Hother k2 r2 v).
  - rewrite lookup_insert_eq in Hk2. rewrite lookup_insert_ne in Hk1 by done.
    injection Hk2 as <-. by destruct (Hother k1 r1 v).
  - rewrite lookup_insert_ne in Hk1, Hk2 by done. by eapply Hinv.
Qed.

Lemma insert_keeps_report_keys (tbl : Table Report) (k : nat) (r : Report) :
  report_keys_sound tbl →
  report_pk r = Some k →
  report_keys_sound {| rows := <[k:=r]> (rows tbl);
                       next_pk := next_pk tbl `max` S k |}.
Proof.
  intros Hinv Hpk k1 r1. cbn [rows next_pk].
  destruct (decide (k1 = k)) as [->|Hne].
  - rewrite lookup_insert_eq. intros [= <-]. split; [done|lia].
  - rewrite lookup_insert_ne by done. intros Hrow.
    destruct (Hinv _ _ Hrow). split; [done|lia].
Qed.

Section WellFormedReports.

Variable RID_PREFIX : string.
Variable swap_prefix : string → string → string.
Variable default_escape_return : bool.
Variable run : PersianEditors → string → string.
Variable ugettext_lazy : string → string.

Local Abbreviation save := (Report_save RID_PREFIX swap_prefix).
Local Abbreviation save_model :=
  (ReportAdmin_save_model RID_PREFIX swap_prefix default_escape_return run
                          ugettext_lazy).
Local Abbreviation view :=
  (change_view RID_PREFIX swap_prefix default_escape_return run ugettext_lazy).

Lemma Report_save_keeps_table (depth : nat) : ∀ instance st,
  report_keys_sound (reports st) → rids_unique (rows (reports st)) →
  report_keys_sound (reports (save depth instance st).1)
  ∧ rids_unique (rows (reports (save depth instance st).1)).
Proof.
  induction depth as [|depth IH]; intros instance st Hkeys Hrids; [done|].
  cbn [Report_save]. unfold bind at 1 2.
  destruct (Report_save_base_outcomes instance st)
    as [[c Hraise]|(k & created & Hwrite & Hfree)].
  - by rewrite Hraise.
  - cbv zeta in Hwrite. rewrite Hwrite. clear Hwrite.
    set (written := set_report_dates _ _ _).
    assert (Hkeys1 : report_keys_sound
              {| rows := <[k:=written]> (rows (reports st));
                 next_pk := next_pk (reports st) `max` S k |})
      by (by apply insert_keeps_report_keys).
    assert (Hrids1 : rids_unique (<[k:=written]> (rows (reports st))))
      by (by apply insert_keeps_rids).
    destruct created; cbn [generate_rid]; [|done].
    unfold bind, emit. cbn [fst snd]. by apply IH.
Qed.

(** The table after [save_model] is the one it met, or the one a save
    left. *)
Lemma save_model_table (depth : nat) (obj : Report)
    (cleaned_data : gmap string string) (st : State) :
  reports (save_model depth obj cleaned_data st).1 = reports st
  ∨ ∃ obj', reports (save_model depth obj cleaned_data st).1
            = reports (save depth obj' st).1.
Proof.
  destruct (decide ("status" ∈ readonly_fields (admin st)
                    ∨ status obj = STATUS_IS_PENDING)) as [Hcase|Hcase].
  - right. rewrite save_model_no_change by done.
    exists (normalised default_escape_return run obj).
    by destruct (save depth _ st) as [st1 [obj1|e]].
  - assert (Hrw : "status" ∉ readonly_fields (admin st))
      by (intros ?; apply Hcase; by left).
    assert (Hdecided : status obj ≠ STATUS_IS_PENDING)
      by (intros ?; apply Hcase; by right).
    destruct (cleaned_data !! "description") as [submitted|] eqn:Hsub.
    + right. rewrite (save_model_first_change _ _ _ _ _ _ _ _ submitted) by done.
      exists (normalised default_escape_return run
                (if bool_decide (submitted = "")
                 then set_description (ugettext_lazy "-") obj else obj)).
      by destruct (save depth _ st) as [st1 [obj1|e]].
    + left. by rewrite save_model_key_error.
Qed.

Lemma get_readonly_fields_eq (obj : option Report) (st : State) :
  get_readonly_fields obj st
  = (set_admin {| readonly_fields := readonly_for obj |} st,
     Ok (readonly_for obj)).
Proof.
  unfold get_readonly_fields, bind, get, put, ret, readonly_for.
  destruct obj as [o|]; [|done]. by destruct (bool_decide _).
Qed.

(** The change view, step by step. *)
Lemma change_view_unfold (depth k : nat) (POST : gmap string string) (st : State) :
  view depth k POST st =
    match rows (reports st) !! k with
    | None => (st, Ok None)
    | Some stored =>
        let st0 := set_admin {| readonly_fields := readonly_for (Some stored) |} st in
        match clean (filter (λ f, f ∉ readonly_for (Some stored))
                            ["description"; "status"]) POST with
        | None => (st0, Ok None)
        | Some cleaned_data =>
            match save_model depth (construct_instance cleaned_data stored)
                             cleaned_data st0 with
            | (st1, Ok obj') => (st1, Ok (Some obj'))
            | (st1, Raise e) => (st1, Raise e)
            end
        end
    end.
Proof.
  unfold change_view. unfold bind at 1. unfold get at 1. cbv beta iota.
  destruct (rows (reports st) !! k) as [stored|]; [|done].
  unfold bind at 1. rewrite get_readonly_fields_eq. cbv zeta.
  destruct (clean _ POST) as [cleaned_data|]; [|done].
  unfold bind at 1.
  by destruct (save_model depth _ cleaned_data _) as [st1 [o|e]].
Qed.

Lemma change_view_table (depth k : nat) (POST : gmap string string) (st : State) :
  reports (view depth k POST st).1 = reports st
  ∨ ∃ obj st0, reports st0 = reports st
               ∧ reports (view depth k POST st).1 = reports (save depth obj st0).1.
Proof.
  rewrite change_view_unfold.
  destruct (rows (reports st) !! k) as [stored|]; [|by left].
  cbv zeta. set (st0 := set_admin _ st).
  destruct (clean _ POST) as [cleaned_data|]; [|by left].
  set (obj := construct_instance cleaned_data stored).
  destruct (save_model_table depth obj cleaned_data st0) as [Hsame|[obj' Hsaved]].
  - left. by destruct (save_model depth obj cleaned_data st0) as [st1 [o|e]].
  - right. exists obj', st0. split; [done|].
    by destruct (save_model depth obj cleaned_data st0) as [st1 [o|e]].
Qed.

End WellFormedReports.

(** X9. [Report.save] and the change view of the admin keep the report
    table well-formed: every row carries its own key, the sequence stays
    ahead of the keys, and no two rows hold the same non-null reference
    identifier. *)
Theorem report_table_stays_well_formed
    (RID_PREFIX : string) (swap_prefix : string → string → string)
    (default_escape_return : bool) (run : PersianEditors → string → string)
    (ugettext_lazy : string → string) (depth : nat) (st : State) :
  report_keys_sound (reports st) →
  rids_unique (rows (reports st)) →
  (∀ instance,
     report_keys_sound
       (reports (Report_save RID_PREFIX swap_prefix depth instance st).1)
     ∧ rids_unique
         (rows (reports (Report_save RID_PREFIX swap_prefix depth instance st).1)))
  ∧ (∀ k POST,
     report_keys_sound
       (reports (change_view RID_PREFIX swap_prefix default_escape_return run
                   ugettext_lazy depth k POST st).1)
     ∧ rids_unique
         (rows (reports (change_view RID_PREFIX swap_prefix
                           default_escape_return run ugettext_lazy
                           depth k POST st).1))).
Proof.
  intros Hkeys Hrids. split.
  - intros instance. by apply Report_save_keeps_table.
  - intros k POST.
    destruct (change_view_table RID_PREFIX swap_prefix default_escape_return
                run ugettext_lazy depth k POST st)
      as [->|(obj & st0 & Hst0 & ->)]; [done|].
    apply Report_save_keeps_table; by rewrite Hst0.
Qed.


(* ===================================================================== *)
(** * Further properties: the report admin *)
(* ===================================================================== *)

(** A closed decidable proposition, settled by evaluation. *)
Ltac decide_closed := apply (bool_decide_unpack _); by vm_compute.

(** X10. [get_readonly_fields] starts from the six fixed names on every
    call, so the list a call leaves on the admin object does not depend
    on the list an earlier call, for whatever report, left there.  The
    status and the description are read-only together, exactly for a
    decided report; the body and the reference identifier always are. *)
Theorem get_readonly_fields_resets_the_list
    (obj earlier : option Report) (st : State) :
  ∃ readonly,
    get_readonly_fields obj st
      = (set_admin {| readonly_fields := readonly |} st, Ok readonly)
    ∧ get_readonly_fields obj (get_readonly_fields earlier st).1
      = get_readonly_fields obj st
    ∧ ("status" ∈ readonly ↔ ∃ o, obj = Some o ∧ status o ≠ STATUS_IS_PENDING)
    ∧ ("description" ∈ readonly ↔ "status" ∈ readonly)
    ∧ "body" ∈ readonly
    ∧ "rid" ∈ readonly.
Proof.
  exists (readonly_for obj). rewrite !get_readonly_fields_eq.
  split; [done|]. split; [done|].
  unfold readonly_for.
  destruct obj as [o|]; [case_bool_decide as Hs|].
  - assert (Hno : ∀ f, f = "status" ∨ f = "description" →
                       f ∉ ["view_page"; "body"; "rid"; "send_email";
                            "jalali_updated_on"; "jalali_created_on"] ++ [])
      by (intros f [->| ->]; decide_closed).
    split_and!; [| |decide_closed|decide_closed].
    + split; [intros Hin; by destruct (Hno "status"); [left|]|].
      intros (o' & [= <-] & Hne). done.
    + split; intros Hin; [by destruct (Hno "description"); [right|]|].
      by destruct (Hno "status"); [left|].
  - split_and!; [| |decide_closed|decide_closed].
    + split; [by exists o|intros _; decide_closed].
    + split; intros _; decide_closed.
  - assert (Hno : ∀ f, f = "status" ∨ f = "description" →
                       f ∉ ["view_page"; "body"; "rid"; "send_email";
                            "jalali_updated_on"; "jalali_created_on"] ++ [])
      by (intros f [->| ->]; decide_closed).
    split_and!; [| |decide_closed|decide_closed].
    + split; [intros Hin; by destruct (Hno "status"); [left|]|].
      by intros (o' & [=] & _).
    + split; intros Hin; [by destruct (Hno "description"); [right|]|].
      by destruct (Hno "status"); [left|].
Qed.

Lemma clean_for_decided (stored : Report) (POST : gmap string string) :
  status stored ≠ STATUS_IS_PENDING →
  clean (filter (λ f, f ∉ readonly_for (Some stored)) ["description"; "status"])
        POST = Some ∅.
Proof.
  intros Hdecided. unfold readonly_for.
  rewrite (bool_decide_eq_false_2 _ Hdecided).
  assert (filter (λ f : string, f ∉ ["view_page"; "body"; "rid"; "send_email";
                                     "jalali_updated_on"; "jalali_created_on"]
                                    ++ ["description"; "status"])
                 ["description"; "status"] = []) as -> by (by vm_compute).
  unfold clean. by rewrite !bool_decide_eq_false_2 by apply not_elem_of_nil.
Qed.

Lemma clean_for_pending (stored : Report) (POST : gmap string string) :
  status stored = STATUS_IS_PENDING →
  clean (filter (λ f, f ∉ readonly_for (Some stored)) ["description"; "status"])
        POST
  = match POST !! "status" with
    | Some v =>
        match Status_of_value v with
        | Some _ => Some (<["status":=v]>
                            {[ "description" := default "" (POST !! "description") ]})
        | None => None
        end
    | None => None
    end.
Proof.
  intros Hpending. unfold readonly_for.
  rewrite (bool_decide_eq_true_2 _ Hpending).
  assert (filter (λ f : string, f ∉ ["view_page"; "body"; "rid"; "send_email";
                                     "jalali_updated_on"; "jalali_created_on"]
                                    ++ [])
                 ["description"; "status"] = ["description"; "status"]) as ->
    by (by vm_compute).
  unfold clean.
  rewrite (bool_decide_eq_true_2 ("description" ∈ _))
    by decide_closed.
  by rewrite (bool_decide_eq_true_2 ("status" ∈ _)) by decide_closed.
Qed.

Lemma construct_instance_valid (stored : Report) (v submitted : string)
    (decision : Status) :
  Status_of_value v = Some decision →
  construct_instance (<["status":=v]> {[ "description" := submitted ]}) stored
  = set_status decision (set_description submitted stored).
Proof.
  intros Hvalue. unfold construct_instance.
  rewrite (lookup_insert_ne _ "status" "description") by done.
  rewrite lookup_singleton_eq, lookup_insert_eq. cbn. by rewrite Hvalue.
Qed.

Section AdminMore.

Variable RID_PREFIX : string.
Variable swap_prefix : string → string → string.
Variable default_escape_return : bool.
Variable run : PersianEditors → string → string.
Variable ugettext_lazy : string → string.

Local Abbreviation save := (Report_save RID_PREFIX swap_prefix).
Local Abbreviation save_model :=
  (ReportAdmin_save_model RID_PREFIX swap_prefix default_escape_return run
                          ugettext_lazy).
Local Abbreviation view :=
  (change_view RID_PREFIX swap_prefix default_escape_return run ugettext_lazy).
Local Abbreviation prepared := (normalised default_escape_return run).

(** What a save of an object whose row exists leaves behind. *)
Lemma save_existing (depth k : nat) (obj stored : Report) (st : State) :
  report_pk obj = Some k →
  rows (reports st) !! k = Some stored →
  (save (S depth) obj st = (st, Raise (IntegrityError "web_report.rid")))
  ∨ (∃ st' written,
       save (S depth) obj st = (st', Ok written)
       ∧ written = set_report_dates (today st) (report_created_on obj)
                     (set_report_pk (Some k) obj)
       ∧ trace st' = trace st ++ [Persisted false k]
       ∧ today st' = today st
       ∧ admin st' = admin st
       ∧ rows (reports st') !! k = Some written
       ∧ ∀ k', k' ≠ k → rows (reports st') !! k' = rows (reports st) !! k').
Proof.
  intros Hpk Hrow. rewrite (Report_save_update _ _ _ _ _ _ _ Hpk Hrow).
  destruct (rid_taken _ _ _); [by left|right].
  cbv zeta. eexists _, _. split; [done|].
  split_and!; [done|done|done|done|apply lookup_insert_eq|].
  intros k' Hne. cbn. by rewrite lookup_insert_ne.
Qed.

(** One change request on a stored report, whatever its status and
    whatever is submitted. *)
Lemma change_view_step (depth k : nat) (POST : gmap string string)
    (st : State) (stored : Report) :
  rows (reports st) !! k = Some stored →
  report_pk stored = Some k →
  ∃ st' outcome events r,
    view (S depth) k POST st = (st', outcome)
    ∧ trace st' = trace st ++ events
    ∧ today st' = today st
    ∧ rows (reports st') !! k = Some r
    ∧ (∀ k', k' ≠ k → rows (reports st') !! k' = rows (reports st) !! k')
    ∧ report_pk r = Some k
    ∧ rid r = rid stored
    ∧ reporter r = reporter stored
    ∧ page r = page stored
    ∧ report_language r = report_language stored
    ∧ report_created_on r = report_created_on stored
    ∧ (body r = body stored ∨ body r = run space_editor (body stored))
    ∧ (∀ e, outcome = Raise e →
         e = IntegrityError "web_report.rid" ∧ r = stored ∧ events = [])
    ∧ (status stored ≠ STATUS_IS_PENDING → status r = status stored)
    ∧ (notifications events = 0
       ∨ (events = [Persisted false k;
                    EmailSent "emails/report_result.html" [reporter stored] r]
          ∧ status stored = STATUS_IS_PENDING
          ∧ status r ≠ STATUS_IS_PENDING)).
Proof.
  intros Hrow Hpk. rewrite change_view_unfold, Hrow. cbv zeta.
  set (st0 := set_admin _ st).
  assert (Hrow0 : rows (reports st0) !! k = Some stored) by done.
  assert (Hidle : ∀ outcome : result (option Report),
                             (∀ e, outcome = Raise e →
                                e = IntegrityError "web_report.rid") →
    ∃ st' outcome' events r,
      (st0, outcome) = (st', outcome')
      ∧ trace st' = trace st ++ events
      ∧ today st' = today st
      ∧ rows (reports st') !! k = Some r
      ∧ (∀ k', k' ≠ k → rows (reports st') !! k' = rows (reports st) !! k')
      ∧ report_pk r = Some k
      ∧ rid r = rid stored
      ∧ reporter r = reporter stored
      ∧ page r = page stored
      ∧ report_language r = report_language stored
      ∧ report_created_on r = report_created_on stored
      ∧ (body r = body stored ∨ body r = run space_editor (body stored))
      ∧ (∀ e, outcome' = Raise e →
           e = IntegrityError "web_report.rid" ∧ r = stored ∧ events = [])
      ∧ (status stored ≠ STATUS_IS_PENDING → status r = status stored)
      ∧ (notifications events = 0
         ∨ (events = [Persisted false k;
                      EmailSent "emails/report_result.html" [reporter stored] r]
            ∧ status stored = STATUS_IS_PENDING
            ∧ status r ≠ STATUS_IS_PENDING))).
  { intros outcome Hout. exists st0, outcome, [], stored.
    split_and!; try done; [by rewrite app_nil_r|by left| |by left].
    intros e He. by split_and!; [apply Hout|..]. }
  destruct (decide (status stored = STATUS_IS_PENDING)) as [Hpending|Hdecided].
  - rewrite clean_for_pending by done.
    destruct (POST !! "status") as [v|]; [|by apply Hidle].
    destruct (Status_of_value v) as [decision|] eqn:Hvalue; [|by apply Hidle].
    rewrite (construct_instance_valid _ _ _ _ Hvalue).
    set (submitted := default "" (POST !! "description")).
    set (obj := set_status decision (set_description submitted stored)).
    destruct (decide (decision = STATUS_IS_PENDING)) as [->|Hchange].
    + rewrite save_model_no_change by (by right).
      destruct (save_existing depth k (prepared obj) stored st0 Hpk Hrow0)
        as [->|(st1 & written & -> & Hw & Htrace & Htoday & _ & Hk & Hothers)].
      { by apply Hidle; intros e [= <-]. }
      exists st1, (Ok (Some written)), [Persisted false k], written.
      split; [done|]. subst written.
      split_and!; try done; [by right|by left].
    + assert (Hrw : "status" ∉ readonly_fields (admin st0)).
      { cbn. unfold readonly_for. rewrite (bool_decide_eq_true_2 _ Hpending).
        decide_closed. }
      assert (Hsub : (<["status":=v]> {[ "description" := submitted ]}
                        : gmap string string) !! "description" = Some submitted).
      { rewrite (lookup_insert_ne _ "status" "description") by done.
        apply lookup_singleton_eq. }
      rewrite (save_model_first_change _ _ _ _ _ _ _ _ submitted) by done.
      set (obj0 := if bool_decide (submitted = "") then _ else _).
      assert (Hpk0 : report_pk (prepared obj0) = Some k)
        by (unfold obj0; by case_bool_decide).
      destruct (save_existing depth k (prepared obj0) stored st0 Hpk0 Hrow0)
        as [->|(st1 & written & -> & Hw & Htrace & Htoday & _ & Hk & Hothers)].
      { by apply Hidle; intros e [= <-]. }
      assert (Hreporter : reporter written = reporter stored)
        by (subst written; unfold obj0; by case_bool_decide).
      eexists _, (Ok (Some written)),
              [Persisted false k;
               EmailSent "emails/report_result.html" [reporter stored] written],
              written.
      split; [done|]. cbn [trace today reports].
      split; [by rewrite Htrace, <- app_assoc, Hreporter|].
      split; [exact Htoday|]. split; [exact Hk|]. split; [exact Hothers|].
      subst written. unfold obj0.
      split_and!; try (by case_bool_decide);
        [right; by case_bool_decide|].
      right. split_and!; [done|done|]. by case_bool_decide.
  - rewrite clean_for_decided by done.
    assert (construct_instance ∅ stored = stored) as ->.
    { unfold construct_instance. by rewrite !lookup_empty. }
    rewrite save_model_no_change.
    2:{ left. cbn. unfold readonly_for.
        rewrite (bool_decide_eq_false_2 _ Hdecided). decide_closed. }
    destruct (save_existing depth k (prepared stored) stored st0 Hpk Hrow0)
      as [->|(st1 & written & -> & Hw & Htrace & Htoday & _ & Hk & Hothers)].
    { by apply Hidle; intros e [= <-]. }
    exists st1, (Ok (Some written)), [Persisted false k], written.
    split; [done|]. subst written.
    split_and!; try done; [by right|by left].
Qed.

End AdminMore.

Lemma notifications_app (a b : list effect) :
  notifications (a ++ b) = notifications a + notifications b.
Proof. unfold notifications. by rewrite filter_app, length_app. Qed.

Lemma recipients_app (a b : list effect) :
  recipients (a ++ b) = recipients a ++ recipients b.
Proof. unfold recipients. apply omap_app. Qed.

Lemma recipients_of_silent (events : list effect) :
  notifications events = 0 → recipients events = [].
Proof.
  induction events as [|e events IH]; [done|].
  change (e :: events) with ([e] ++ events).
  rewrite notifications_app, recipients_app. destruct e; cbn; try done.
  all: intros Hn; by rewrite IH.
Qed.

(** X11. The lookup [form.cleaned_data['description']] of [save_model]
    can miss: called on a first change with cleaned data that do not
    hold the description, [save_model] raises the key error before
    anything is written.  Through the change view it never misses: for a
    stored report, whatever is submitted, the request does not end in
    that key error, since a first change is only seen when the form
    offered the description. *)
Theorem change_view_never_misses_description
    (RID_PREFIX : string) (swap_prefix : string → string → string)
    (default_escape_return : bool) (run : PersianEditors → string → string)
    (ugettext_lazy : string → string)
    (depth k : nat) (POST : gmap string string) (st : State) :
  (∀ obj cleaned_data,
     "status" ∉ readonly_fields (admin st) →
     status obj ≠ STATUS_IS_PENDING →
     cleaned_data !! "description" = None →
     ReportAdmin_save_model RID_PREFIX swap_prefix default_escape_return run
       ugettext_lazy depth obj cleaned_data st
     = (st, Raise (KeyError "description")))
  ∧ (∀ stored,
     rows (reports st) !! k = Some stored →
     report_pk stored = Some k →
     (change_view RID_PREFIX swap_prefix default_escape_return run
        ugettext_lazy (S depth) k POST st).2 ≠ Raise (KeyError "description")).
Proof.
  split.
  - intros obj cleaned_data. apply save_model_key_error.
  - intros stored Hrow Hpk Hraise.
    destruct (change_view_step RID_PREFIX swap_prefix default_escape_return
                run ugettext_lazy depth k POST st stored Hrow Hpk)
      as (st' & outcome & events & r & Hview & _ & _ & _ & _
          & _ & _ & _ & _ & _ & _ & _ & Herr & _).
    rewrite Hview in Hraise. cbn [snd] in Hraise.
    by destruct (Herr _ Hraise) as (? & _).
Qed.

(** X12. No change request alters what the form does not offer: the
    reference identifier, the reporter, the page, the language, the key
    and the creation date of the report stay as stored, the body is the
    stored one or its form after the space pass, and every other row of
    the table is left alone. *)
Theorem change_view_keeps_the_rest
    (RID_PREFIX : string) (swap_prefix : string → string → string)
    (default_escape_return : bool) (run : PersianEditors → string → string)
    (ugettext_lazy : string → string)
    (depth k : nat) (POST : gmap string string) (st : State) (stored : Report) :
  rows (reports st) !! k = Some stored →
  report_pk stored = Some k →
  ∃ r,
    rows (reports (change_view RID_PREFIX swap_prefix default_escape_return
                     run ugettext_lazy (S depth) k POST st).1) !! k = Some r
    ∧ report_pk r = Some k
    ∧ rid r = rid stored
    ∧ reporter r = reporter stored
    ∧ page r = page stored
    ∧ report_language r = report_language stored
    ∧ report_created_on r = report_created_on stored
    ∧ (body r = body stored ∨ body r = run space_editor (body stored))
    ∧ ∀ k', k' ≠ k →
        rows (reports (change_view RID_PREFIX swap_prefix default_escape_return
                         run ugettext_lazy (S depth) k POST st).1) !! k'
        = rows (reports st) !! k'.
Proof.
  intros Hrow Hpk.
  destruct (change_view_step RID_PREFIX swap_prefix default_escape_return
              run ugettext_lazy depth k POST st stored Hrow Hpk)
    as (st' & outcome & events & r & Hview & _ & _ & Hk & Hothers
        & Hpk' & Hrid & Hreporter & Hpage & Hlang & Hcreated & Hbody & _).
  rewrite Hview. cbn [fst]. exists r. by split_and!.
Qed.

(** X13. Over any sequence of change requests on a stored report at most
    one notification is sent, and it goes to the reporter: none while the
    report is pending, one with the request that decides it, none for a
    report that is decided already; a report that is decided keeps its
    status. *)
Theorem report_notified_at_most_once
    (RID_PREFIX : string) (swap_prefix : string → string → string)
    (default_escape_return : bool) (run : PersianEditors → string → string)
    (ugettext_lazy : string → string)
    (depth k : nat) (submissions : list (gmap string string)) :
  ∀ (st : State) (stored : Report),
  rows (reports st) !! k = Some stored →
  report_pk stored = Some k →
  ∃ events r,
    let st' := change_views RID_PREFIX swap_prefix default_escape_return run
                 ugettext_lazy (S depth) k submissions st in
    trace st' = trace st ++ events
    ∧ rows (reports st') !! k = Some r
    ∧ notifications events ≤ 1
    ∧ (status stored ≠ STATUS_IS_PENDING →
       notifications events = 0 ∧ status r = status stored)
    ∧ (status r = STATUS_IS_PENDING → notifications events = 0)
    ∧ (∀ to, to ∈ recipients events → to = [reporter stored]).
Proof.
  induction submissions as [|POST later IH]; intros st stored Hrow Hpk.
  - exists [], stored. cbn.
    split_and!; [by rewrite app_nil_r|done|lia|done|done|].
    intros to Hto. by apply elem_of_nil in Hto.
  - destruct (change_view_step RID_PREFIX swap_prefix default_escape_return
                run ugettext_lazy depth k POST st stored Hrow Hpk)
      as (st1 & outcome & events1 & r1 & Hview & Htrace1 & _ & Hk1 & _
          & Hpk1 & _ & Hreporter1 & _ & _ & _ & _ & _ & Hkeep1 & Hnotified1).
    destruct (IH st1 r1 Hk1 Hpk1) as (events2 & r & Hrun). cbv zeta in Hrun.
    destruct Hrun as (Htrace2 & Hk & Hmost & Hdecided & Hpending & Hto).
    exists (events1 ++ events2), r. cbn [change_views]. rewrite Hview. cbn [fst].
    rewrite notifications_app.
    split; [by rewrite Htrace2, Htrace1, app_assoc|]. split; [done|].
    destruct Hnotified1 as [Hsilent|(-> & Hwas & Hnow)].
    + rewrite Hsilent. cbn [Nat.add].
      split; [done|]. split.
      { intros Hd. destruct (Hdecided ltac:(by rewrite (Hkeep1 Hd))) as [H0 Hs].
        split; [done|]. by rewrite Hs, (Hkeep1 Hd). }
      split; [done|].
      intros to. rewrite recipients_app, (recipients_of_silent _ Hsilent).
      cbn [app]. rewrite <- Hreporter1. apply Hto.
    + destruct (Hdecided Hnow) as [H0 Hs]. rewrite H0.
      split; [by cbn|]. split; [done|]. split; [congruence|].
      intros to. rewrite recipients_app, (recipients_of_silent _ H0).
      cbn. intros Hin. apply elem_of_cons in Hin as [->|Hin]; [done|].
      by apply elem_of_nil in Hin.
Qed.



(* ===================================================================== *)
(** * Further properties: language switch *)
(* ===================================================================== *)

Lemma split_no_sep (sep : ascii) (s : string) :
  (sep ∉ list_ascii_of_string s) → split sep s = [s].
Proof.
  induction s as [|c s IH]; intros Hno; [done|].
  cbn in Hno. apply not_elem_of_cons in Hno as [Hc Hs].
  cbn [split]. rewrite bool_decide_eq_false_2 by done. by rewrite IH.
Qed.

Lemma split_app_sep (sep : ascii) (s r : string) :
  (sep ∉ list_ascii_of_string s) →
  split sep (s +:+ String sep r) = s :: split sep r.
Proof.
  induction s as [|c s IH]; intros Hno.
  - change (split sep (String sep r) = "" :: split sep r).
    cbn [split]. by rewrite bool_decide_eq_true_2.
  - cbn in Hno. apply not_elem_of_cons in Hno as [Hc Hs].
    rewrite string_app_cons. cbn [split].
    rewrite bool_decide_eq_false_2 by done. by rewrite IH.
Qed.

(** [sep.join(pieces).split(sep) == pieces] for pieces without [sep]. *)
Lemma split_concat (sep : ascii) (pieces : list string) :
  pieces ≠ [] →
  Forall (λ p, sep ∉ list_ascii_of_string p) pieces →
  split sep (String.concat (String sep EmptyString) pieces) = pieces.
Proof.
  induction pieces as [|x [|y rest] IH]; intros Hne Hall; [done| |].
  - apply split_no_sep. by apply Forall_inv in Hall.
  - change (String.concat (String sep "") (x :: y :: rest))
      with (x +:+ String sep (String.concat (String sep "") (y :: rest))).
    rewrite split_app_sep by (by apply Forall_inv in Hall).
    rewrite IH; [done|done|by apply Forall_inv_tail in Hall].
Qed.

Lemma split_pieces_no_sep (sep : ascii) (s : string) :
  Forall (λ p, sep ∉ list_ascii_of_string p) (split sep s).
Proof.
  induction s as [|c s IH]; cbn [split].
  - constructor; [apply not_elem_of_nil|constructor].
  - case_bool_decide as Hc.
    + constructor; [apply not_elem_of_nil|done].
    + destruct (split sep s) as [|part parts]; [|inversion_clear IH].
      * constructor; [|constructor]. cbn. apply not_elem_of_cons.
        split; [done|apply not_elem_of_nil].
      * constructor; [|done]. cbn. by apply not_elem_of_cons.
Qed.

Section LanguageSwitchMore.

Variable LANGUAGES : list (string * string).

Local Abbreviation codes := (lang_codes LANGUAGES).
Local Abbreviation switch := (switch_lang_code LANGUAGES).

(** The rewritten path, read as the separator and the join of its
    pieces; the first piece is the new language. *)
Lemma switch_lang_code_pieces (s language part : string) (parts : list string) :
  language ∈ codes →
  split "/" s = part :: parts →
  switch (String "/" s) language =
    Ok (String "/" (String.concat "/"
                      (language :: if bool_decide (part ∈ codes) then parts
                                   else part :: parts))).
Proof.
  intros Hlang Hs. rewrite (switch_lang_code_valid _ _ _ _ _ Hlang Hs).
  f_equal. case_bool_decide; [done|].
  change (("/" +:+ language) +:+ "/" +:+ String.concat "/" (part :: parts)
          = "/" +:+ language +:+ "/" +:+ String.concat "/" (part :: parts)).
  by rewrite string_app_assoc.
Qed.

Lemma switch_lang_code_again (language language' : string) (pieces : list string) :
  language ∈ codes → language' ∈ codes →
  ("/"%char ∉ list_ascii_of_string language) →
  Forall (λ p, "/"%char ∉ list_ascii_of_string p) pieces →
  switch (String "/" (String.concat "/" (language :: pieces))) language' =
    Ok (String "/" (String.concat "/" (language' :: pieces))).
Proof.
  intros Hlang Hlang' Hno Hall.
  rewrite (switch_lang_code_pieces _ _ language pieces Hlang').
  - by rewrite bool_decide_eq_true_2.
  - apply (split_concat "/" (language :: pieces)); [done|by constructor].
Qed.

End LanguageSwitchMore.

(** X14. Switching the language twice is switching to the second
    language: for a path that starts with [/] and supported codes, the
    first of them without a [/], the rewritten path is accepted again
    and rewriting it gives what rewriting the original path gives.  In
    particular a second switch to the same language changes nothing. *)
Theorem switch_lang_code_composes
    (LANGUAGES : list (string * string)) (s first second : string) :
  first ∈ lang_codes LANGUAGES →
  second ∈ lang_codes LANGUAGES →
  ("/"%char ∉ list_ascii_of_string first) →
  ∃ rewritten,
    switch_lang_code LANGUAGES (String "/" s) first = Ok rewritten
    ∧ switch_lang_code LANGUAGES rewritten second
      = switch_lang_code LANGUAGES (String "/" s) second
    ∧ switch_lang_code LANGUAGES rewritten first = Ok rewritten.
Proof.
  intros Hfirst Hsecond Hno.
  destruct (split_cons "/" s) as (part & parts & Hs).
  pose proof (split_pieces_no_sep "/" s) as Hall. rewrite Hs in Hall.
  rewrite !(switch_lang_code_pieces _ _ _ part parts) by done.
  eexists. split; [done|].
  assert (Hrest : Forall (λ p, "/"%char ∉ list_ascii_of_string p)
                    (if bool_decide (part ∈ lang_codes LANGUAGES)
                     then parts else part :: parts)).
  { case_bool_decide; [by apply Forall_inv_tail in Hall|done]. }
  split; by apply switch_lang_code_again.
Qed.

(** X15. Switching away from a language and back gives the path back:
    when the path is [/], a supported code without [/] and a rest that is
    empty or starts with [/], rewriting it for another supported code
    without [/] and rewriting the result for the original code returns
    the original path. *)
Theorem switch_lang_code_round_trip
    (LANGUAGES : list (string * string))
    (original other rest : string) :
  original ∈ lang_codes LANGUAGES →
  other ∈ lang_codes LANGUAGES →
  ("/"%char ∉ list_ascii_of_string original) →
  ("/"%char ∉ list_ascii_of_string other) →
  rest = "" ∨ (∃ r, rest = String "/" r) →
  ∃ rewritten,
    switch_lang_code LANGUAGES ("/" +:+ original +:+ rest) other = Ok rewritten
    ∧ rewritten = "/" +:+ other +:+ rest
    ∧ switch_lang_code LANGUAGES rewritten original
      = Ok ("/" +:+ original +:+ rest).
Proof.
  intros Horiginal Hother Hno Hno' Hrest.
  assert (Hpieces : ∃ parts,
    Forall (λ p, "/"%char ∉ list_ascii_of_string p) parts
    ∧ ∀ code, ("/"%char ∉ list_ascii_of_string code) →
        split "/" (code +:+ rest) = code :: parts
        ∧ String.concat "/" (code :: parts) = code +:+ rest).
  { destruct Hrest as [->|[r ->]].
    - exists []. split; [constructor|]. intros code Hcode.
      rewrite string_app_nil_r. split; [by apply split_no_sep|done].
    - exists (split "/" r). split; [apply split_pieces_no_sep|].
      intros code Hcode. split; [by apply split_app_sep|].
      destruct (split_cons "/" r) as (part & parts & Hr).
      pose proof (concat_split "/" r) as Hj. rewrite Hr in Hj |- *.
      change (code +:+ String "/" (String.concat "/" (part :: parts))
              = code +:+ String "/" r).
      by rewrite Hj. }
  destruct Hpieces as (parts & Hall & Hcode).
  destruct (Hcode original Hno) as [Hsplit Hjoin].
  destruct (Hcode other Hno') as [_ Hjoin'].
  change ("/" +:+ original +:+ rest) with (String "/" (original +:+ rest)).
  rewrite (switch_lang_code_pieces _ _ _ original parts Hother Hsplit).
  rewrite (bool_decide_eq_true_2 _ Horiginal).
  eexists. split; [done|]. split.
  - by rewrite Hjoin'.
  - rewrite switch_lang_code_again by done. by rewrite Hjoin.
Qed.

(** X16. The three checks run in the order empty path, missing leading
    [/], unsupported language, and the first one that fails names the
    error; every exception the rewriter raises is one of these three, so
    the index [parts[1]] is never out of range. *)
Theorem switch_lang_code_error_is_first_failed_check
    (LANGUAGES : list (string * string)) (path_ language : string)
    (e : exception) :
  switch_lang_code LANGUAGES path_ language = Raise e →
  (path_ = ""
   ∧ e = Exception "URL path for language switch is empty")
  ∨ (path_ ≠ "" ∧ (∀ s, path_ ≠ String "/" s)
     ∧ e = Exception ("URL path for language switch does not start with "
                      +:+ dquote +:+ "/" +:+ dquote))
  ∨ ((∃ s, path_ = String "/" s) ∧ (language ∉ lang_codes LANGUAGES)
     ∧ e = Exception (language +:+ " is not a supported language code")).
Proof.
  unfold switch_lang_code. case_bool_decide as Hempty.
  { intros [= <-]. by left. }
  destruct path_ as [|c0 s]; [done|].
  case_bool_decide as Hslash.
  { intros [= <-]. right; left. split_and!; [done| |done].
    intros s' [= -> _]. done. }
  assert (c0 = "/"%char) as -> by (by destruct (decide (c0 = "/"%char))).
  case_bool_decide as Hlang.
  { intros [= <-]. right; right. split_and!; [by exists s|done|done]. }
  destruct (split_cons "/" s) as (part & parts & Hs).
  cbn [split]. rewrite bool_decide_eq_true_2 by done. rewrite Hs.
  cbn [lookup list_lookup]. done.
Qed.

(* ===================================================================== *)
(** * Theorems: the Jalali date display *)
(* ===================================================================== *)

Lemma all_from_spec (check : Z → bool) (count : nat) : ∀ n k,
  all_from check n count = true →
  (n ≤ k < n + Z.of_nat count)%Z → check k = true.
Proof.
  induction count as [|count IH]; intros n k Hall Hk; [lia|].
  cbn [all_from] in Hall. apply andb_true_iff in Hall as [Hn Hrest].
  destruct (decide (k = n)) as [->|Hne]; [done|].
  apply (IH (n + 1)%Z); [done|lia].
Qed.

(** One cycle of 33 years, day by day: each day number gives a date of
    the Jalali calendar, and the day after gives the day after. *)
Lemma jalali_cycle_checked :
  all_from (λ r, let j := jalali_of_day_number r in
                 valid_date jalali_month_days j
                 && (979 <=? j.1.1)%Z
                 && bool_decide (jalali_of_day_number (r + 1)
                                 = next_day jalali_month_days j))
           0 (Z.to_nat 12053) = true.
Proof. vm_compute. reflexivity. Qed.

(** The conversion repeats with the cycle. *)
Lemma jalali_of_day_number_shift (n c : Z) :
  jalali_of_day_number (n + c * 12053)
  = ((jalali_of_day_number n).1.1 + 33 * c,
     (jalali_of_day_number n).1.2,
     (jalali_of_day_number n).2)%Z.
Proof.
  unfold jalali_of_day_number.
  rewrite Z.div_add, Z.mod_add by done. cbv zeta.
  repeat case_match; cbn [fst snd]; rewrite !pair_equal_spec; lia.
Qed.

Lemma jalali_leap_shift (y c : Z) :
  jalali_leap (y + 33 * c) = jalali_leap y.
Proof.
  unfold jalali_leap. by rewrite (Z.mul_comm 33 c), Z.mod_add.
Qed.

Lemma next_day_jalali_shift (y m d c : Z) :
  next_day jalali_month_days (y + 33 * c, m, d)%Z
  = ((next_day jalali_month_days (y, m, d)).1.1 + 33 * c,
     (next_day jalali_month_days (y, m, d)).1.2,
     (next_day jalali_month_days (y, m, d)).2)%Z.
Proof.
  unfold next_day, jalali_month_days. rewrite jalali_leap_shift.
  repeat case_match; cbn [fst snd]; rewrite !pair_equal_spec; lia.
Qed.

(** Every day number gives a month and a day of the Jalali calendar,
    and the next number gives the day after. *)
Lemma jalali_of_day_number_next (n : Z) :
  let j := jalali_of_day_number n in
  (∃ y, j.1.1 = y + 33 * (n `div` 12053) ∧ 979 ≤ y
        ∧ valid_date jalali_month_days (y, j.1.2, j.2) = true)%Z
  ∧ jalali_of_day_number (n + 1) = next_day jalali_month_days j.
Proof.
  intros j. subst j.
  pose proof (Z.div_mod n 12053 ltac:(done)) as Hn.
  pose proof (Z.mod_pos_bound n 12053 ltac:(done)) as Hr.
  set (c := (n `div` 12053)%Z) in *. set (r := (n `mod` 12053)%Z) in *.
  pose proof (all_from_spec _ _ 0%Z r jalali_cycle_checked ltac:(lia)) as Hcheck.
  cbv zeta beta in Hcheck.
  apply andb_true_iff in Hcheck as [Hcheck Hnext%bool_decide_eq_true].
  apply andb_true_iff in Hcheck as [Hvalid Hyear%Z.leb_le].
  clearbody c r. subst n.
  replace (12053 * c + r + 1)%Z with ((r + 1) + c * 12053)%Z by lia.
  replace (12053 * c + r)%Z with (r + c * 12053)%Z by lia.
  rewrite !jalali_of_day_number_shift, Hnext.
  destruct (jalali_of_day_number r) as [[y m] d] eqn:Hj. cbn [fst snd] in *.
  split; [by exists y|].
  by rewrite next_day_jalali_shift.
Qed.

Lemma foldr_add_snoc (l : list Z) (a : Z) :
  (foldr Z.add 0 (l ++ [a]) = foldr Z.add 0 l + a)%Z.
Proof. induction l as [|x l IH]; cbn; lia. Qed.

Lemma month_days_sum_snoc (f : Z → Z) (m : Z) :
  (1 ≤ m)%Z →
  (foldr Z.add 0 (f <$> seqZ 1 m)
   = foldr Z.add 0 (f <$> seqZ 1 (m - 1)) + f m)%Z.
Proof.
  intros Hm. replace m with ((m - 1) + 1)%Z at 1 by lia.
  rewrite seqZ_app by lia.
  change (seqZ (1 + (m - 1)) 1) with [(1 + (m - 1))%Z].
  rewrite fmap_app. cbn [fmap list_fmap]. rewrite foldr_add_snoc.
  by replace (1 + (m - 1))%Z with m by lia.
Qed.

Lemma month_days_sum_nonneg (y m : Z) :
  (0 ≤ foldr Z.add 0 (gregorian_month_days y <$> seqZ 1 m))%Z.
Proof.
  induction (seqZ 1 m) as [|k l IH]; cbn; [done|].
  assert (0 ≤ gregorian_month_days y k)%Z; [|lia].
  unfold gregorian_month_days. repeat case_match; lia.
Qed.

(** The day after has the next day number. *)
Lemma gregorian_day_number_next (t : Z * Z * Z) :
  valid_date gregorian_month_days t = true →
  (gregorian_day_number (next_day gregorian_month_days t)
   = gregorian_day_number t + 1)%Z.
Proof.
  destruct t as [[y m] d]. unfold valid_date, next_day.
  rewrite !andb_true_iff, !Z.leb_le. intros ((((Hy & Hm1) & Hm12) & Hd1) & Hd).
  destruct (Z.ltb_spec d (gregorian_month_days y m)) as [Hlt|Hge].
  { unfold gregorian_day_number. lia. }
  assert (d = gregorian_month_days y m) as -> by lia.
  destruct (Z.ltb_spec m 12) as [Hm|Hm].
  { unfold gregorian_day_number.
    replace (m + 1 - 1)%Z with m by lia.
    rewrite (month_days_sum_snoc _ m) by lia. lia. }
  assert (m = 12%Z) as -> by lia.
  unfold gregorian_day_number.
  change (seqZ 1 (1 - 1)) with (@nil Z).
  change (seqZ 1 (12 - 1)) with [1; 2; 3; 4; 5; 6; 7; 8; 9; 10; 11]%Z.
  cbn [fmap list_fmap foldr].
  change (gregorian_month_days y 12) with 31%Z.
  change (gregorian_month_days y 1) with 31%Z.
  change (gregorian_month_days y 2)
    with (if gregorian_leap y then 29 else 28)%Z.
  change (gregorian_month_days y 3) with 31%Z.
  change (gregorian_month_days y 4) with 30%Z.
  change (gregorian_month_days y 5) with 31%Z.
  change (gregorian_month_days y 6) with 30%Z.
  change (gregorian_month_days y 7) with 31%Z.
  change (gregorian_month_days y 8) with 31%Z.
  change (gregorian_month_days y 9) with 30%Z.
  change (gregorian_month_days y 10) with 31%Z.
  change (gregorian_month_days y 11) with 30%Z.
  replace (y + 1 - 1)%Z with y by lia.
  unfold gregorian_leap.
  destruct (Z.eqb_spec (y `mod` 4) 0) as [H4|H4],
           (Z.eqb_spec (y `mod` 100) 0) as [H100|H100],
           (Z.eqb_spec (y `mod` 400) 0) as [H400|H400];
    cbn [andb orb negb]; Z.div_mod_to_equations; lia.
Qed.

(** From the year 1000 on the day number is within 29 cycles before
    the day the count of the conversion starts. *)
Lemma gregorian_day_number_bound (y m d : Z) :
  (1000 ≤ y)%Z → (1 ≤ d)%Z →
  (-29 ≤ (gregorian_day_number (y, m, d) - 584102) `div` 12053)%Z.
Proof.
  intros Hy Hd. unfold gregorian_day_number.
  pose proof (month_days_sum_nonneg y (m - 1)) as Hsum.
  apply Z.div_le_lower_bound; [done|].
  Z.div_mod_to_equations. lia.
Qed.

(** The digit characters of the decimal printer. *)
Lemma pretty_N_char_digit (v : N) :
  (v < 10)%N →
  is_ascii_digit (pretty_N_char v) = true
  ∧ nat_of_ascii (pretty_N_char v) - 48 = N.to_nat v.
Proof.
  intros Hv.
  assert (v = 0 ∨ v = 1 ∨ v = 2 ∨ v = 3 ∨ v = 4 ∨ v = 5 ∨ v = 6 ∨ v = 7
          ∨ v = 8 ∨ v = 9)%N as Hcases by lia.
  repeat (destruct Hcases as [->|Hcases]; [by vm_compute|]).
  subst v. by vm_compute.
Qed.

(** Reading the digits the printer puts in front of a text. *)
Lemma parse_digits_pretty_N_go (x : N) :
  ∃ weight, ∀ acc s,
    parse_digits acc (pretty_N_go x s)
    = parse_digits (acc * weight + N.to_nat x) s.
Proof.
  induction (N.lt_wf_0 x) as [x _ IH].
  destruct (decide (x = 0)%N) as [->|Hx].
  - exists 1. intros acc s. rewrite pretty_N_go_0. f_equal. lia.
  - destruct (IH (x `div` 10)%N) as [weight Hweight];
      [apply N.div_lt; lia|].
    exists (10 * weight). intros acc s.
    rewrite pretty_N_go_step, Hweight by lia. cbn [parse_digits].
    destruct (pretty_N_char_digit (x `mod` 10)%N) as [-> ->];
      [by apply N.mod_lt|].
    f_equal. pose proof (N.div_mod x 10 ltac:(done)). lia.
Qed.

(** The decimal text of a number reads back as the number. *)
Lemma parse_digits_pretty (n : nat) : parse_digits 0 (pretty n) = Some n.
Proof.
  unfold pretty, pretty_nat, pretty, pretty_N. case_decide as Hn.
  - by replace n with 0 by lia.
  - destruct (parse_digits_pretty_N_go (N.of_nat n)) as [weight ->].
    cbn [parse_digits]. f_equal. lia.
Qed.

Lemma pretty_nat_nonempty (n : nat) : pretty n ≠ "".
Proof.
  intros Hempty. pose proof (parse_digits_pretty n) as Hparse.
  rewrite Hempty in Hparse. injection Hparse as <-. done.
Qed.

Lemma parse_nat_pretty (n : nat) : parse_nat (pretty n) = Some n.
Proof.
  unfold parse_nat. rewrite bool_decide_eq_false_2
    by apply pretty_nat_nonempty. apply parse_digits_pretty.
Qed.

Lemma parse_digits_zeros (k : nat) (s : string) :
  parse_digits 0 (zeros k +:+ s) = parse_digits 0 s.
Proof. induction k as [|k IH]; [done|]. cbn [zeros]. by rewrite string_app_cons. Qed.

Lemma parse_nat_zero_pad (width n : nat) :
  parse_nat (zero_pad width n) = Some n.
Proof.
  unfold parse_nat, zero_pad. rewrite bool_decide_eq_false_2.
  - rewrite parse_digits_zeros. apply parse_digits_pretty.
  - destruct (zeros _) as [|c z]; [apply pretty_nat_nonempty|].
    by rewrite string_app_cons.
Qed.

(** The printed numbers hold digits only, so no dash. *)
Lemma zero_pad_digits (width n : nat) :
  ∀ c, c ∈ list_ascii_of_string (zero_pad width n) → is_ascii_digit c = true.
Proof.
  unfold zero_pad. induction (width - _) as [|k IH]; intros c Hc.
  - by apply pretty_nat_digits in Hc.
  - cbn [zeros] in Hc. rewrite string_app_cons in Hc. cbn in Hc.
    apply elem_of_cons in Hc as [->|Hc]; [done|by apply IH].
Qed.

(** [strftime('%Y-%m-%d')] loses nothing: the text reads back as the
    date. *)
Lemma parse_Ymd_strftime (d : datetime) : parse_Ymd (strftime_Ymd d) = Some d.
Proof.
  unfold parse_Ymd, strftime_Ymd.
  assert (Hdash : ∀ s, (∀ c, c ∈ list_ascii_of_string s → is_ascii_digit c = true) →
                       "-"%char ∉ list_ascii_of_string s).
  { intros s Hs Hin. by apply Hs in Hin. }
  change (pretty (year d) +:+ "-" +:+ zero_pad 2 (month d) +:+ "-"
          +:+ zero_pad 2 (day d))
    with (pretty (year d) +:+ String "-" (zero_pad 2 (month d)
          +:+ String "-" (zero_pad 2 (day d)))).
  rewrite split_app_sep by apply Hdash, pretty_nat_digits.
  rewrite split_app_sep by apply Hdash, zero_pad_digits.
  rewrite split_no_sep by apply Hdash, zero_pad_digits.
  rewrite parse_nat_pretty, !parse_nat_zero_pad. cbn. by destruct d.
Qed.

Lemma from_persian_other (a : ascii) (rest : string) :
  nat_of_ascii a ≠ 219 →
  from_persian (String a rest) = String a (from_persian rest).
Proof.
  intros Ha. destruct rest as [|b rest]; [done|].
  cbn [from_persian]. rewrite bool_decide_eq_false_2; [done|]. by intros [? _].
Qed.

(** Reading a remapped text back gives the text, when the text holds
    ASCII characters only. *)
Lemma from_persian_to_persian (s : string) :
  (∀ c, c ∈ list_ascii_of_string s → nat_of_ascii c < 128) →
  from_persian (to_persian s) = s.
Proof.
  induction s as [|c s IH]; intros Hs; [done|].
  assert (Hc : nat_of_ascii c < 128) by (apply Hs; cbn; constructor).
  assert (Hrest : from_persian (to_persian s) = s).
  { apply IH. intros c' Hc'. apply Hs. cbn. by constructor. }
  cbn [to_persian]. destruct (is_ascii_digit c) eqn:Hdigit.
  - apply bool_decide_eq_true in Hdigit.
    change (persian_digit c +:+ to_persian s)
      with (String (ascii_of_nat 219)
              (String (ascii_of_nat (176 + (nat_of_ascii c - 48)))
                 (to_persian s))).
    cbn [from_persian]. rewrite !nat_ascii_embedding by lia.
    rewrite bool_decide_eq_true_2 by lia. rewrite Hrest. f_equal.
    replace (176 + (nat_of_ascii c - 48) - 176 + 48) with (nat_of_ascii c)
      by lia.
    apply ascii_nat_embedding.
  - change (String c "" +:+ to_persian s) with (String c (to_persian s)).
    rewrite from_persian_other by lia. by rewrite Hrest.
Qed.

Lemma ascii_digit_is_ascii (c : ascii) :
  is_ascii_digit c = true → nat_of_ascii c < 128.
Proof. intros Hc%bool_decide_eq_true. lia. Qed.

Lemma strftime_Ymd_ascii (d : datetime) :
  ∀ c, c ∈ list_ascii_of_string (strftime_Ymd d) → nat_of_ascii c < 128.
Proof.
  assert (Happ : ∀ a b c, c ∈ list_ascii_of_string (a +:+ b) →
            (c ∈ list_ascii_of_string a) ∨ (c ∈ list_ascii_of_string b)).
  { intros a b c. induction a as [|x a IH]; [by right|].
    rewrite string_app_cons. cbn. rewrite !elem_of_cons.
    intros [->|Hin]; [by left; left|].
    destruct (IH Hin) as [Ha|Hb]; [by left; right|by right]. }
  intros c Hc. unfold strftime_Ymd in Hc.
  apply Happ in Hc as [Hc|Hc];
    [by apply ascii_digit_is_ascii, (pretty_nat_digits (year d))|].
  apply Happ in Hc as [Hc|Hc].
  { cbn in Hc. apply elem_of_cons in Hc as [->|Hc]; [decide_closed|].
    by apply elem_of_nil in Hc. }
  apply Happ in Hc as [Hc|Hc];
    [by apply ascii_digit_is_ascii, (zero_pad_digits 2 (month d))|].
  apply Happ in Hc as [Hc|Hc].
  { cbn in Hc. apply elem_of_cons in Hc as [->|Hc]; [decide_closed|].
    by apply elem_of_nil in Hc. }
  by apply ascii_digit_is_ascii, (zero_pad_digits 2 (day d)).
Qed.

(** What the two display methods have in common, for a timestamp [g]
    and the string [display] computed from it. *)
Lemma jalali_display_of (g : datetime) :
  civil g →
  let j := gregorian_to_jalali (ymd g) in
  let display := to_persian (convert_date_to_jalali (strftime_Ymd g)) in
  valid_date jalali_month_days j = true
  ∧ gregorian_to_jalali (next_day gregorian_month_days (ymd g))
    = next_day jalali_month_days j
  ∧ ymd (of_ymd j) = j
  ∧ display = to_persian (strftime_Ymd (of_ymd j))
  ∧ parse_Ymd (from_persian display) = Some (of_ymd j).
Proof.
  intros [Hyear Hvalid] j display.
  assert (Hconv : convert_date_to_jalali (strftime_Ymd g)
                  = strftime_Ymd (of_ymd j)).
  { unfold convert_date_to_jalali. by rewrite parse_Ymd_strftime. }
  destruct (jalali_of_day_number_next
              (gregorian_day_number (ymd g) - 584102))
    as [(y & Hy & Hy979 & Hj) Hnext].
  fold (gregorian_to_jalali (ymd g)) in Hy, Hj, Hnext. fold j in Hy, Hj, Hnext.
  assert (Hd1 : (1 ≤ Z.of_nat (day g))%Z).
  { unfold valid_date, ymd in Hvalid.
    rewrite !andb_true_iff, !Z.leb_le in Hvalid. lia. }
  pose proof (gregorian_day_number_bound (Z.of_nat (year g))
                (Z.of_nat (month g)) (Z.of_nat (day g)) ltac:(lia) Hd1)
    as Hcycle.
  fold (ymd g) in Hcycle.
  assert (Hjvalid : valid_date jalali_month_days j = true).
  { destruct j as [[jy jm] jd]. cbn [fst snd] in *.
    unfold valid_date in Hj |- *. unfold jalali_month_days in Hj |- *.
    rewrite Hy, jalali_leap_shift.
    rewrite !andb_true_iff, !Z.leb_le in Hj |- *. 
    destruct Hj as ((((? & ?) & ?) & ?) & ?). split_and!; [lia|done..]. }
  split; [done|]. split.
  { unfold gregorian_to_jalali at 1.
    rewrite gregorian_day_number_next by done. rewrite <- Hnext.
    f_equal. lia. }
  split.
  { destruct j as [[jy jm] jd]. unfold valid_date in Hjvalid.
    rewrite !andb_true_iff, !Z.leb_le in Hjvalid.
    unfold ymd, of_ymd. cbn [fst snd year month day].
    rewrite !Z2Nat.id by lia. done. }
  subst display. rewrite Hconv. split; [done|].
  rewrite from_persian_to_persian by apply strftime_Ymd_ascii.
  apply parse_Ymd_strftime.
Qed.

(** C9. The localized date display methods format the stored Gregorian
    timestamp as year-month-day, convert it to its Jalali calendar
    equivalent and remap the ASCII digits of the result to Persian-script
    digits.  For a timestamp that is a day of the Gregorian calendar in
    a year of four digits, the string shown is the Jalali date of that
    day written as year-month-day in Persian digits: read back, it is a
    date of the Jalali calendar, the date of the day after is the day
    after in the Jalali calendar, and 21 March 2023 is the first day of
    the Jalali year 1402.  The formatted timestamp reads back as the
    timestamp, the ten ASCII digits become the ten Persian-script digits
    and no ASCII digit is left in the string shown.  The methods are
    functions of the timestamp: they have no state to change. *)
Theorem jalali_display_converts_then_remaps
    (M : Type) `{BaseModel M} (self : M) :
  (civil (updated_on self) →
   let j := gregorian_to_jalali (ymd (updated_on self)) in
   valid_date jalali_month_days j = true
   ∧ gregorian_to_jalali (next_day gregorian_month_days (ymd (updated_on self)))
     = next_day jalali_month_days j
   ∧ ymd (of_ymd j) = j
   ∧ jalali_updated_on convert_date_to_jalali self
     = to_persian (strftime_Ymd (of_ymd j))
   ∧ parse_Ymd (from_persian (jalali_updated_on convert_date_to_jalali self))
     = Some (of_ymd j))
  ∧ (civil (created_on self) →
     let j := gregorian_to_jalali (ymd (created_on self)) in
     valid_date jalali_month_days j = true
     ∧ gregorian_to_jalali (next_day gregorian_month_days (ymd (created_on self)))
       = next_day jalali_month_days j
     ∧ ymd (of_ymd j) = j
     ∧ jalali_created_on convert_date_to_jalali self
       = to_persian (strftime_Ymd (of_ymd j))
     ∧ parse_Ymd (from_persian (jalali_created_on convert_date_to_jalali self))
       = Some (of_ymd j))
  ∧ gregorian_to_jalali (2023, 3, 21)%Z = (1402, 1, 1)%Z
  ∧ parse_Ymd (strftime_Ymd (updated_on self)) = Some (updated_on self)
  ∧ parse_Ymd (strftime_Ymd (created_on self)) = Some (created_on self)
  ∧ to_persian "0123456789" = "۰۱۲۳۴۵۶۷۸۹"
  ∧ (∀ b, b ∈ list_ascii_of_string (jalali_updated_on convert_date_to_jalali self) →
          is_ascii_digit b = false)
  ∧ (∀ b, b ∈ list_ascii_of_string (jalali_created_on convert_date_to_jalali self) →
          is_ascii_digit b = false).
Proof.
  split_and!.
  - intros Hcivil. apply (jalali_display_of (updated_on self) Hcivil).
  - intros Hcivil. apply (jalali_display_of (created_on self) Hcivil).
  - by vm_compute.
  - apply parse_Ymd_strftime.
  - apply parse_Ymd_strftime.
  - by vm_compute.
  - apply to_persian_no_ascii_digit.
  - apply to_persian_no_ascii_digit.
Qed.


(* ===================================================================== *)
(** * The further properties at concrete stores *)
(* ===================================================================== *)

Lemma generate_id_repeats_until_persisted_witness :
  generate_gid "g" example_draws 1 ∅ 0 = Some ("g_aaaa", 1)
  ∧ example_draws 1 = example_draws (pred 1)
  ∧ generate_gid "g" example_draws 1 ∅ 1 = Some ("g_aaaa", 2)
  ∧ generate_pid "p" example_draws 1 ∅ 1 = Some ("p_aaaa", 2).
Proof.
  destruct (generate_id_repeats_until_persisted "g" "p" example_draws 1 0 ∅ ∅ 0)
    as [Hgid Hpid].
  split; [vm_compute; reflexivity|]. split; [reflexivity|]. split.
  - apply Hgid; vm_compute; reflexivity.
  - apply Hpid; vm_compute; reflexivity.
Defined.

Lemma generated_pid_is_accepted_and_retired_witness :
  generate_pid "p" example_draws 1 (rows empty_pages) 0 = Some ("p_aaaa", 1)
  ∧ ∃ tbl' saved,
      Page_save spring_day groupless_first empty_pages = (tbl', Ok saved)
      ∧ rows tbl' !! next_pk empty_pages = Some saved
      ∧ pid saved = "p_aaaa"
      ∧ group saved = None
      ∧ is_pid_exist (rows tbl') "p_aaaa" = true
      ∧ ∀ fuel2 drawn2 p2 drawn2',
          generate_pid "p" example_draws fuel2 (rows tbl') drawn2
            = Some (p2, drawn2') →
          p2 ≠ "p_aaaa".
Proof.
  split; [vm_compute; reflexivity|].
  apply (generated_pid_is_accepted_and_retired "p" example_draws 1 0 1 "p_aaaa"
           spring_day groupless_first empty_pages);
    vm_compute; reflexivity.
Defined.

Lemma page_pids_stay_unique_witness :
  reachable one_groupless_page
  ∧ pids_unique (rows one_groupless_page)
  ∧ ∃ constraint,
      Page_save spring_day groupless_first one_groupless_page
        = (one_groupless_page, Raise (IntegrityError constraint)).
Proof.
  assert (Hreach : reachable one_groupless_page)
    by apply (reachable_save _ spring_day groupless_first reachable_empty).
  destruct (page_pids_stay_unique one_groupless_page Hreach) as [Hinv Hrefused].
  split; [exact Hreach|]. split; [exact Hinv|].
  eapply (Hrefused spring_day groupless_first _ 1).
  - vm_compute. reflexivity.
  - reflexivity.
  - discriminate.
Defined.

Lemma page_update_into_taken_pair_refused_witness :
  let moved := set_page_pk (Some 2)
                 (new_page (Some "g_aaaa") "fa" "p_bbbb" "Second") in
  ∃ constraint,
    Page_save spring_day moved two_grouped_pages
      = (two_grouped_pages, Raise (IntegrityError constraint)).
Proof.
  intros moved.
  eapply (page_update_into_taken_pair_refused spring_day moved _ 1 2 "g_aaaa").
  - vm_compute. reflexivity.
  - reflexivity.
  - discriminate.
  - reflexivity.
  - reflexivity.
  - reflexivity.
Defined.

Lemma stored_page_edit_is_accepted_witness :
  let stored := set_page_pk (Some 1)
                  (new_page (Some "g_aaaa") "fa" "p_aaaa" "First") in
  let obj := set_page_texts "Title 2" "" "content" "" "" stored in
  reachable one_grouped_page
  ∧ rows one_grouped_page !! 1 = Some stored
  ∧ ∃ saved,
      PageAdmin_save_model true example_run spring_day obj one_grouped_page
        = ({| rows := <[1:=saved]> (rows one_grouped_page);
              next_pk := next_pk one_grouped_page |}, Ok saved)
      ∧ title saved = example_run (full_editor true) "Title 2"
      ∧ reference saved = reference obj.
Proof.
  intros stored obj.
  assert (Hreach : reachable one_grouped_page).
  { apply (reachable_save _ spring_day
             (new_page (Some "g_aaaa") "fa" "p_aaaa" "First") reachable_empty). }
  assert (Hrow : rows one_grouped_page !! 1 = Some stored)
    by (vm_compute; reflexivity).
  split; [exact Hreach|]. split; [exact Hrow|].
  destruct (stored_page_edit_is_accepted true example_run spring_day obj stored
              1 one_grouped_page Hreach Hrow eq_refl eq_refl eq_refl eq_refl)
    as (saved & Hsave & _ & Htitle & _ & _ & _ & _ & Href & _).
  exists saved. split; [exact Hsave|]. split; [exact Htitle|exact Href].
Defined.

Lemma derived_rids_tell_reports_apart_witness :
  let st := state_with ∅ 1 in
  let second_report := set_report_pk (Some 2) new_report in
  let first_rid := set_rid (Some "r_aaaa_1") saved_report in
  let second_rid := set_rid (Some "r_aaaa_2") second_report in
  generate_rid "r" example_swap_prefix ret saved_report true st
    = ((generate_rid "r" example_swap_prefix ret saved_report true st).1,
       Ok first_rid)
  ∧ generate_rid "r" example_swap_prefix ret second_report true st
    = ((generate_rid "r" example_swap_prefix ret second_report true st).1,
       Ok second_rid)
  ∧ pid (page saved_report) = pid (page second_report)
  ∧ rid first_rid ≠ rid second_rid.
Proof.
  intros st second_report first_rid second_rid.
  assert (Hrun1 : generate_rid "r" example_swap_prefix ret saved_report true st
            = ((generate_rid "r" example_swap_prefix ret saved_report true st).1,
               Ok first_rid))
    by (vm_compute; reflexivity).
  assert (Hrun2 : generate_rid "r" example_swap_prefix ret second_report true st
            = ((generate_rid "r" example_swap_prefix ret second_report true st).1,
               Ok second_rid))
    by (vm_compute; reflexivity).
  split; [exact Hrun1|]. split; [exact Hrun2|]. split; [reflexivity|].
  apply (derived_rids_tell_reports_apart "p" "r" example_swap_prefix
           saved_report second_report first_rid second_rid "aaaa" "aaaa" 1 2
           st st
           (generate_rid "r" example_swap_prefix ret saved_report true st).1
           (generate_rid "r" example_swap_prefix ret second_report true st).1).
  - intros a b Heq.
    change (String "r" (String "_" a) = String "r" (String "_" b)) in Heq.
    by injection Heq.
  - reflexivity.
  - reflexivity.
  - reflexivity.
  - reflexivity.
  - exact Hrun1.
  - exact Hrun2.
  - right. discriminate.
Defined.

Lemma pending_state_is_well_formed :
  report_keys_sound (reports (state_with {[ 1 := pending_report ]} 2))
  ∧ rids_unique (rows (reports (state_with {[ 1 := pending_report ]} 2))).
Proof.
  split.
  - intros k r Hrow. cbn in Hrow.
    apply lookup_singleton_Some in Hrow as [<- <-]. split; [done|cbn; lia].
  - intros k1 k2 r1 r2 v Hk1 Hk2 _ _. cbn in Hk1, Hk2.
    apply lookup_singleton_Some in Hk1 as [<- _].
    by apply lookup_singleton_Some in Hk2 as [<- _].
Defined.

Lemma report_table_stays_well_formed_witness :
  let st := state_with {[ 1 := pending_report ]} 2 in
  report_keys_sound (reports st)
  ∧ rids_unique (rows (reports st))
  ∧ report_keys_sound
      (reports (Report_save "r" example_swap_prefix 2 new_report st).1)
  ∧ rids_unique
      (rows (reports (change_view "r" example_swap_prefix true example_run id
                        2 1 accept_without_description st).1)).
Proof.
  intros st. destruct pending_state_is_well_formed as [Hkeys Hrids].
  destruct (report_table_stays_well_formed "r" example_swap_prefix true
              example_run id 2 st Hkeys Hrids) as [Hsave Hview].
  split; [exact Hkeys|]. split; [exact Hrids|]. split.
  - exact (proj1 (Hsave new_report)).
  - exact (proj2 (Hview 1 accept_without_description)).
Defined.

Lemma change_view_never_misses_description_witness :
  let st := state_with {[ 1 := pending_report ]} 2 in
  ReportAdmin_save_model "r" example_swap_prefix true example_run id 1
    (set_status STATUS_IS_DENIED pending_report) ∅ st
  = (st, Raise (KeyError "description"))
  ∧ (change_view "r" example_swap_prefix true example_run id 1 1
       {[ "status" := "denied" ]} st).2 ≠ Raise (KeyError "description").
Proof.
  intros st.
  destruct (change_view_never_misses_description "r" example_swap_prefix true
              example_run id 1 1 {[ "status" := "denied" ]} st)
    as [Hmiss _].
  destruct (change_view_never_misses_description "r" example_swap_prefix true
              example_run id 0 1 {[ "status" := "denied" ]} st)
    as [_ Hview].
  split.
  - apply Hmiss; [vm_compute; by inversion 1|discriminate|reflexivity].
  - apply (Hview pending_report); [vm_compute; reflexivity|reflexivity].
Defined.

Lemma change_view_keeps_the_rest_witness :
  let st := state_with {[ 1 := pending_report ]} 2 in
  rows (reports st) !! 1 = Some pending_report
  ∧ ∃ r,
      rows (reports (change_view "r" example_swap_prefix true example_run id
                       1 1 deny_with_description st).1) !! 1 = Some r
      ∧ rid r = Some "r_aaaa_1"
      ∧ reporter r = "reader@example.com".
Proof.
  intros st.
  assert (Hrow : rows (reports st) !! 1 = Some pending_report)
    by (vm_compute; reflexivity).
  split; [exact Hrow|].
  destruct (change_view_keeps_the_rest "r" example_swap_prefix true example_run
              id 0 1 deny_with_description st pending_report Hrow eq_refl)
    as (r & Hk & _ & Hrid & Hreporter & _).
  exists r. split; [exact Hk|]. split; [exact Hrid|exact Hreporter].
Defined.

Lemma report_notified_at_most_once_witness :
  let st := state_with {[ 1 := pending_report ]} 2 in
  ∃ events,
    trace (change_views "r" example_swap_prefix true example_run id 1 1
             [accept_without_description; deny_with_description;
              accept_without_description] st)
      = trace st ++ events
    ∧ notifications events ≤ 1
    ∧ ∀ to, to ∈ recipients events → to = ["reader@example.com"].
Proof.
  intros st.
  assert (Hrow : rows (reports st) !! 1 = Some pending_report)
    by (vm_compute; reflexivity).
  pose proof (report_notified_at_most_once "r" example_swap_prefix true
                example_run id 0 1
                [accept_without_description; deny_with_description;
                 accept_without_description] st pending_report Hrow eq_refl)
    as (events & r & Hrun).
  cbv zeta in Hrun. destruct Hrun as (Htrace & _ & Hmost & _ & _ & Hto).
  exists events. split; [exact Htrace|]. split; [exact Hmost|exact Hto].
Defined.

Lemma no_slash_in_code (code : string) :
  code = "fa" ∨ code = "en" → "/"%char ∉ list_ascii_of_string code.
Proof.
  intros [->| ->]; cbn; intros Hin;
    repeat (apply elem_of_cons in Hin as [Hin|Hin]; [discriminate Hin|]);
    by apply elem_of_nil in Hin.
Defined.

Lemma switch_lang_code_composes_witness :
  ∃ rewritten,
    switch_lang_code LANGUAGES_fa_en "/en/foo" "fa" = Ok rewritten
    ∧ switch_lang_code LANGUAGES_fa_en rewritten "en"
      = switch_lang_code LANGUAGES_fa_en "/en/foo" "en"
    ∧ switch_lang_code LANGUAGES_fa_en rewritten "fa" = Ok rewritten.
Proof.
  apply (switch_lang_code_composes LANGUAGES_fa_en "en/foo" "fa" "en").
  - vm_compute. constructor.
  - vm_compute. do 2 constructor.
  - apply no_slash_in_code. by left.
Defined.

Lemma switch_lang_code_round_trip_witness :
  ∃ rewritten,
    switch_lang_code LANGUAGES_fa_en ("/" +:+ "en" +:+ "/foo") "fa" = Ok rewritten
    ∧ rewritten = "/" +:+ "fa" +:+ "/foo"
    ∧ switch_lang_code LANGUAGES_fa_en rewritten "en"
      = Ok ("/" +:+ "en" +:+ "/foo").
Proof.
  apply (switch_lang_code_round_trip LANGUAGES_fa_en "en" "fa" "/foo").
  - vm_compute. do 2 constructor.
  - vm_compute. constructor.
  - apply no_slash_in_code. by right.
  - apply no_slash_in_code. by left.
  - right. by exists "foo".
Defined.

Lemma switch_lang_code_error_is_first_failed_check_witness :
  switch_lang_code LANGUAGES_fa_en "" "de"
    = Raise (Exception "URL path for language switch is empty")
  ∧ (("" = ""
      ∧ Exception "URL path for language switch is empty"
        = Exception "URL path for language switch is empty")
     ∨ ("" ≠ "" ∧ (∀ s, "" ≠ String "/" s)
        ∧ Exception "URL path for language switch is empty"
          = Exception ("URL path for language switch does not start with "
                       +:+ dquote +:+ "/" +:+ dquote))
     ∨ ((∃ s, "" = String "/" s) ∧ ("de" ∉ lang_codes LANGUAGES_fa_en)
        ∧ Exception "URL path for language switch is empty"
          = Exception ("de" +:+ " is not a supported language code"))).
Proof.
  split; [reflexivity|].
  apply (switch_lang_code_error_is_first_failed_check LANGUAGES_fa_en "" "de").
  reflexivity.
Defined.



Lemma jalali_display_converts_then_remaps_witness :
  civil (updated_on pending_report)
  ∧ updated_on pending_report = {| year := 2023; month := 3; day := 21 |}
  ∧ jalali_updated_on convert_date_to_jalali pending_report
    = to_persian "1402-01-01"
  ∧ jalali_updated_on convert_date_to_jalali pending_report = "۱۴۰۲-۰۱-۰۱"
  ∧ parse_Ymd (from_persian (jalali_updated_on convert_date_to_jalali
                               pending_report))
    = Some {| year := 1402; month := 1; day := 1 |}
  ∧ gregorian_to_jalali (2023, 3, 22)%Z = (1402, 1, 2)%Z.
Proof.
  assert (Hcivil : civil (updated_on pending_report))
    by (split; [vm_compute; lia|vm_compute; reflexivity]).
  destruct (jalali_display_converts_then_remaps Report pending_report)
    as (Hupdated & _).
  destruct (Hupdated Hcivil) as (_ & Hnext & _ & Hshown & Hread).
  split; [exact Hcivil|]. split; [reflexivity|].
  split; [exact Hshown|]. split; [exact Hshown|].
  split; [exact Hread|exact Hnext].
Defined.
